(** * Experience replay memory (slm_lab/agent/memory/replay.py)

    A shallow embedding of the [Replay] class and its subclasses, and the
    properties of the ring buffer, of next-state reconstruction and of
    index sampling.

    Conventions of the embedding:
    - Python integers are [Z]; [%] on integers is [Z.modulo] (both take the
      sign of the divisor) and raises [ZeroDivisionError] on a zero divisor.
    - A Python list or numpy array is a [list]; indexing follows Python
      (negative indices count from the end, anything else out of range
      raises [IndexError]).
    - [None] in a storage slot is [None : option _].
    - A method is a computation in the monad [M]: it reads and writes the
      attributes of [self] and returns a value or raises; the attributes
      written before an exception stay written.
    - numpy's array type and the array operations the module calls
      ([astype(np.float16)], [np.zeros], [np.stack], [np.concatenate],
      [util.normalize_image], subtraction of a scalar) are parameters of
      the development.  A reward is a Python float, binary64.
    - [np.random.randint] is driven by the words of the generator, which
      are an argument of [sample]: the [j]-th word decides the [j]-th
      integer that is returned. *)

From stdpp Require Import base tactics option list.
From Stdlib Require Import ZArith Lia Floats.

Open Scope Z_scope.

(** ** Python and numpy primitives *)

Inductive exn := ValueError | IndexError | ZeroDivisionError.

Inductive result (A : Type) :=
| Ok (a : A)
| Raise (e : exn).
Arguments Ok {A} a.
Arguments Raise {A} e.

(** [a % b] on Python integers. *)
Definition py_mod (a b : Z) : result Z :=
  if b =? 0 then Raise ZeroDivisionError else Ok (a mod b).

(** Position denoted by the index [i] in a sequence of length [len]. *)
Definition py_index (len : nat) (i : Z) : result nat :=
  let n := Z.of_nat len in
  if (0 <=? i) && (i <? n) then Ok (Z.to_nat i)
  else if (- n <=? i) && (i <? 0) then Ok (Z.to_nat (i + n))
  else Raise IndexError.

(** [l[i]] *)
Definition py_getitem {A} (l : list A) (i : Z) : result A :=
  match py_index (length l) i with
  | Ok k => match l !! k with Some x => Ok x | None => Raise IndexError end
  | Raise e => Raise e
  end.

(** [l[i] = v] *)
Definition py_setitem {A} (l : list A) (i : Z) (v : A) : result (list A) :=
  match py_index (length l) i with
  | Ok k => Ok (<[k:=v]> l)
  | Raise e => Raise e
  end.

(** [[x] * n]: empty when [n] is not positive. *)
Definition py_list_repeat {A} (x : A) (n : Z) : list A := replicate (Z.to_nat n) x.

(** [np.argwhere(a == v).flatten()]: the positions of [a] that hold [v]. *)
Fixpoint np_argwhere_eq_from (k : nat) (a : list Z) (v : Z) : list nat :=
  match a with
  | [] => []
  | x :: a' =>
      if x =? v then k :: np_argwhere_eq_from (S k) a' v
      else np_argwhere_eq_from (S k) a' v
  end.

Definition np_argwhere_eq (a : list Z) (v : Z) : list nat := np_argwhere_eq_from 0 a v.

(** [a[locs] = v] for an array of positions [locs] of [a]. *)
Definition np_put {A} (a : list A) (locs : list nat) (v : A) : list A :=
  foldl (fun acc k => <[k:=v]> acc) a locs.

(** [np.sign] on a float: [-1], [0], [+1], and NaN for NaN. *)
Definition np_sign (x : float) : float :=
  if PrimFloat.ltb 0 x then 1%float
  else if PrimFloat.ltb x 0 then (-1)%float
  else if PrimFloat.eqb x 0 then 0%float
  else x.

(** [np.isnan] *)
Definition np_isnan (x : float) : bool := PrimFloat.is_nan x.

(** The integer of [[0, high)] that [np.random.randint] makes of a word [w]
    of the generator: the word reduced into the range, so that every run
    of [high] consecutive words gives every integer of the range once. *)
Definition randint_word (high w : Z) : Z := w mod high.

(** [np.random.randint(high, size=n)], given the words [draws] of the
    generator (a word that is missing counts as 0): [n] integers of
    [[0, high)], the [j]-th decided by the [j]-th word; it raises on a
    negative [n] and on an empty range when samples are taken. *)
Definition np_random_randint (high n : Z) (draws : list Z) : result (list Z) :=
  if n <? 0 then Raise ValueError
  else if (high <=? 0) && negb (n =? 0) then Raise ValueError
  else Ok ((fun j => randint_word high (nth j draws 0)) <$> seq 0 (Z.to_nat n)).

(** Words that are the returned integers themselves: [n] integers of
    [[0, high)], any of them, repetitions included. *)
Definition randint_spec (high n : Z) (draws : list Z) : Prop :=
  Z.of_nat (length draws) = n /\ Forall (fun d => 0 <= d < high) draws.

(** [collections.deque(maxlen=n).append(x)]: the oldest item is dropped
    when the deque is full. *)
Definition deque_append {A} (maxlen : Z) (buf : list A) (x : A) : list A :=
  let b := buf ++ [x] in
  drop (length b - Z.to_nat maxlen) b.

(** Modelled from the spec: [util.cond_multiget] of slm_lab/lib/util.py,
    which is not among the sources: the storage list is indexed at each of
    the chosen positions, in order. *)
Fixpoint cond_multiget {A} (arr : list A) (idxs : list Z) : result (list A) :=
  match idxs with
  | [] => Ok []
  | i :: idxs' =>
      match py_getitem arr i with
      | Ok x =>
          match cond_multiget arr idxs' with
          | Ok xs => Ok (x :: xs)
          | Raise e => Raise e
          end
      | Raise e => Raise e
      end
  end.

(** ** A model of numpy arrays

    Arrays of binary64 numbers, nested for the dimensions, with the array
    operations that the memory calls.  The development below is stated for
    any array type and any such operations; this model instantiates it, so
    that the statements can be run on concrete transitions. *)

Inductive ndarray :=
| scalar (x : float)
| array (items : list ndarray).

Fixpoint nd_map (f : float -> float) (a : ndarray) : ndarray :=
  match a with
  | scalar x => scalar (f x)
  | array items => array (map (nd_map f) items)
  end.

Definition nd_items (a : ndarray) : list ndarray :=
  match a with
  | scalar _ => []
  | array items => items
  end.

(** Rounding of a binary64 number to binary16 (11 bits of precision,
    exponents up to 16), to nearest and ties to even, as IEEE 754 has it. *)
Definition float16 (x : float) : float :=
  match Prim2SF x with
  | S754_finite s m e =>
      SF2Prim (binary_normalize 11 16 (if s then Z.neg m else Z.pos m) e s)
  | _ => x
  end.

(** [a.astype(np.float16)] *)
Definition nd_astype_float16 (a : ndarray) : ndarray := nd_map float16 a.

(** [np.zeros(n)]: a negative dimension is refused. *)
Definition nd_zeros (n : Z) : result ndarray :=
  if n <? 0 then Raise ValueError
  else Ok (array (replicate (Z.to_nat n) (scalar 0))).

(** [np.stack(arrays)] and [np.concatenate(arrays)]: an empty sequence of
    arrays is refused. *)
Definition nd_stack (arrays : list ndarray) : result ndarray :=
  match arrays with
  | [] => Raise ValueError
  | _ => Ok (array arrays)
  end.

Definition nd_concatenate (arrays : list ndarray) : result ndarray :=
  match arrays with
  | [] => Raise ValueError
  | _ => Ok (array (concat (map nd_items arrays)))
  end.

(** [util.normalize_image(a)] is [a / 255]; [a - c] for a scalar [c]. *)
Definition nd_normalize_image (a : ndarray) : ndarray :=
  nd_map (fun x => (x / 255)%float) a.

Definition nd_sub_scalar (a : ndarray) (c : float) : ndarray :=
  nd_map (fun x => (x - c)%float) a.

(** ** The memory object *)

Inductive klass := CReplay | CSeqReplay | CConcatReplay | CAtariReplay | CImageReplay.

Section Memory.

(** numpy arrays holding a state, and actions. *)
Context {State Action : Type}.

Variable astype_float16 : State -> State.
Variable np_zeros : Z -> result State.
Variable np_stack : list State -> result State.
Variable np_concatenate : list State -> result State.
Variable normalize_image : State -> State.
Variable np_sub_scalar : State -> float -> State.

Record Replay := mkReplay {
  cls : klass;                          (* the class of [self] *)
  batch_size : Z;
  max_size : Z;
  use_cer : bool;
  is_venv : bool;                       (* self.body.env.is_venv *)
  state_dim : Z;                        (* self.body.state_dim *)
  raw_state_dim : Z;                    (* ConcatReplay *)
  last_state : option State;            (* Memory *)
  state_buffer : list State;            (* deque *)
  state_buffer_maxlen : Z;
  batch_idxs : option (list Z);
  size : Z;
  seen_size : Z;
  head : Z;
  states : list (option State);
  actions : list (option Action);
  rewards : list (option float);
  next_states : list (option State);
  dones : list (option bool);
  latest_next_state : option State
}.

Definition set_last_state v m :=
  mkReplay (cls m) (batch_size m) (max_size m) (use_cer m) (is_venv m) (state_dim m)
    (raw_state_dim m) v (state_buffer m) (state_buffer_maxlen m) (batch_idxs m)
    (size m) (seen_size m) (head m) (states m) (actions m) (rewards m) (next_states m)
    (dones m) (latest_next_state m).
Definition set_state_buffer v m :=
  mkReplay (cls m) (batch_size m) (max_size m) (use_cer m) (is_venv m) (state_dim m)
    (raw_state_dim m) (last_state m) v (state_buffer_maxlen m) (batch_idxs m)
    (size m) (seen_size m) (head m) (states m) (actions m) (rewards m) (next_states m)
    (dones m) (latest_next_state m).
Definition set_state_buffer_maxlen v m :=
  mkReplay (cls m) (batch_size m) (max_size m) (use_cer m) (is_venv m) (state_dim m)
    (raw_state_dim m) (last_state m) (state_buffer m) v (batch_idxs m)
    (size m) (seen_size m) (head m) (states m) (actions m) (rewards m) (next_states m)
    (dones m) (latest_next_state m).
Definition set_batch_idxs v m :=
  mkReplay (cls m) (batch_size m) (max_size m) (use_cer m) (is_venv m) (state_dim m)
    (raw_state_dim m) (last_state m) (state_buffer m) (state_buffer_maxlen m) v
    (size m) (seen_size m) (head m) (states m) (actions m) (rewards m) (next_states m)
    (dones m) (latest_next_state m).
Definition set_size v m :=
  mkReplay (cls m) (batch_size m) (max_size m) (use_cer m) (is_venv m) (state_dim m)
    (raw_state_dim m) (last_state m) (state_buffer m) (state_buffer_maxlen m) (batch_idxs m)
    v (seen_size m) (head m) (states m) (actions m) (rewards m) (next_states m)
    (dones m) (latest_next_state m).
Definition set_seen_size v m :=
  mkReplay (cls m) (batch_size m) (max_size m) (use_cer m) (is_venv m) (state_dim m)
    (raw_state_dim m) (last_state m) (state_buffer m) (state_buffer_maxlen m) (batch_idxs m)
    (size m) v (head m) (states m) (actions m) (rewards m) (next_states m)
    (dones m) (latest_next_state m).
Definition set_head v m :=
  mkReplay (cls m) (batch_size m) (max_size m) (use_cer m) (is_venv m) (state_dim m)
    (raw_state_dim m) (last_state m) (state_buffer m) (state_buffer_maxlen m) (batch_idxs m)
    (size m) (seen_size m) v (states m) (actions m) (rewards m) (next_states m)
    (dones m) (latest_next_state m).
Definition set_states v m :=
  mkReplay (cls m) (batch_size m) (max_size m) (use_cer m) (is_venv m) (state_dim m)
    (raw_state_dim m) (last_state m) (state_buffer m) (state_buffer_maxlen m) (batch_idxs m)
    (size m) (seen_size m) (head m) v (actions m) (rewards m) (next_states m)
    (dones m) (latest_next_state m).
Definition set_actions v m :=
  mkReplay (cls m) (batch_size m) (max_size m) (use_cer m) (is_venv m) (state_dim m)
    (raw_state_dim m) (last_state m) (state_buffer m) (state_buffer_maxlen m) (batch_idxs m)
    (size m) (seen_size m) (head m) (states m) v (rewards m) (next_states m)
    (dones m) (latest_next_state m).
Definition set_rewards v m :=
  mkReplay (cls m) (batch_size m) (max_size m) (use_cer m) (is_venv m) (state_dim m)
    (raw_state_dim m) (last_state m) (state_buffer m) (state_buffer_maxlen m) (batch_idxs m)
    (size m) (seen_size m) (head m) (states m) (actions m) v (next_states m)
    (dones m) (latest_next_state m).
Definition set_next_states v m :=
  mkReplay (cls m) (batch_size m) (max_size m) (use_cer m) (is_venv m) (state_dim m)
    (raw_state_dim m) (last_state m) (state_buffer m) (state_buffer_maxlen m) (batch_idxs m)
    (size m) (seen_size m) (head m) (states m) (actions m) (rewards m) v
    (dones m) (latest_next_state m).
Definition set_dones v m :=
  mkReplay (cls m) (batch_size m) (max_size m) (use_cer m) (is_venv m) (state_dim m)
    (raw_state_dim m) (last_state m) (state_buffer m) (state_buffer_maxlen m) (batch_idxs m)
    (size m) (seen_size m) (head m) (states m) (actions m) (rewards m) (next_states m)
    v (latest_next_state m).
Definition set_latest_next_state v m :=
  mkReplay (cls m) (batch_size m) (max_size m) (use_cer m) (is_venv m) (state_dim m)
    (raw_state_dim m) (last_state m) (state_buffer m) (state_buffer_maxlen m) (batch_idxs m)
    (size m) (seen_size m) (head m) (states m) (actions m) (rewards m) (next_states m)
    (dones m) v.

(** ** Methods as computations over [self] *)

Definition M (A : Type) : Type := Replay -> result A * Replay.

Definition ret {A} (a : A) : M A := fun m => (Ok a, m).

Definition bind {A B} (c : M A) (k : A -> M B) : M B :=
  fun m =>
    match c m with
    | (Ok a, m') => k a m'
    | (Raise e, m') => (Raise e, m')
    end.

Definition gets {A} (f : Replay -> A) : M A := fun m => (Ok (f m), m).
Definition modify (f : Replay -> Replay) : M unit := fun m => (Ok tt, f m).
Definition lift {A} (r : result A) : M A := fun m => (r, m).

Notation "x <- c ;; k" := (bind c (fun x => k))
  (at level 100, c at next level, right associativity).
Notation "c ;; k" := (bind c (fun _ => k))
  (at level 100, right associativity).

(** [for _ in range(n): body] *)
Fixpoint for_range (n : nat) (body : M unit) : M unit :=
  match n with
  | O => ret tt
  | S n' => body ;; for_range n' body
  end.

(** [self.state_buffer.clear()] and [self.state_buffer.append(x)] *)
Definition state_buffer_clear : M unit := modify (set_state_buffer []).

Definition state_buffer_append (x : State) : M unit :=
  modify (fun m => set_state_buffer (deque_append (state_buffer_maxlen m) (state_buffer m) x) m).

(** The loop that refills the window with zero states of dimension [dim]:
    [np.zeros(dim)] is evaluated in the body, once for every turn. *)
Definition state_buffer_fill_zeros (dim : Z) : M unit :=
  maxlen <- gets state_buffer_maxlen ;;
  for_range (Z.to_nat maxlen) (z <- lift (np_zeros dim) ;; state_buffer_append z).

(** *** Replay.reset, ConcatReplay.reset *)

Definition Replay_reset : M unit :=
  n <- gets max_size ;;
  modify (set_states (py_list_repeat None n)) ;;
  modify (set_actions (py_list_repeat None n)) ;;
  modify (set_rewards (py_list_repeat None n)) ;;
  modify (set_next_states (py_list_repeat None n)) ;;
  modify (set_dones (py_list_repeat None n)) ;;
  modify (set_latest_next_state None) ;;
  modify (set_size 0) ;;
  modify (set_head (-1)) ;;
  state_buffer_clear ;;
  dim <- gets state_dim ;;
  state_buffer_fill_zeros dim.

Definition ConcatReplay_reset : M unit :=
  Replay_reset ;;
  state_buffer_clear ;;
  dim <- gets raw_state_dim ;;
  state_buffer_fill_zeros dim.

Definition reset : M unit :=
  c <- gets cls ;;
  match c with
  | CConcatReplay => ConcatReplay_reset
  | _ => Replay_reset
  end.

(** *** The base class Memory *)

(** Modelled from the spec: [Memory.preprocess_append] of
    slm_lab/agent/memory/base.py, which is not among the sources; the
    state is appended to the window only at first sight. *)
Definition preprocess_append (state : State) (append : bool) : M unit :=
  if append then state_buffer_append state else ret tt.

(** Modelled from the spec: [Memory.preprocess_state] of
    slm_lab/agent/memory/base.py, the identity transformer. *)
Definition Memory_preprocess_state (state : State) (append : bool) : M State :=
  ret state.

(** Modelled from the spec: [Memory.epi_reset] of
    slm_lab/agent/memory/base.py: the given state becomes the first
    observation of the episode and the window is cleared and refilled with
    zero states. *)
Definition Memory_epi_reset (state : State) : M unit :=
  modify (set_last_state (Some state)) ;;
  state_buffer_clear ;;
  dim <- gets state_dim ;;
  state_buffer_fill_zeros dim.

(** *** preprocess_state of each class *)

Definition SeqReplay_preprocess_state (state : State) (append : bool) : M State :=
  preprocess_append state append ;;
  buf <- gets state_buffer ;;
  lift (np_stack buf).

Definition ConcatReplay_preprocess_state (state : State) (append : bool) : M State :=
  preprocess_append state append ;;
  buf <- gets state_buffer ;;
  lift (np_concatenate buf).

Definition ImageReplay_preprocess_state (state : State) (append : bool) : M State :=
  ret (np_sub_scalar (normalize_image state) 0.5%float).

Definition preprocess_state (state : State) (append : bool) : M State :=
  c <- gets cls ;;
  match c with
  | CSeqReplay => SeqReplay_preprocess_state state append
  | CConcatReplay => ConcatReplay_preprocess_state state append
  | CImageReplay => ImageReplay_preprocess_state state append
  | CReplay | CAtariReplay => Memory_preprocess_state state append
  end.

(** *** epi_reset *)

Definition Replay_epi_reset (state : State) : M unit :=
  s <- preprocess_state state false ;;
  Memory_epi_reset s.

Definition ConcatReplay_epi_reset (state : State) : M unit :=
  Replay_epi_reset state ;;
  state_buffer_clear ;;
  dim <- gets raw_state_dim ;;
  state_buffer_fill_zeros dim.

Definition epi_reset (state : State) : M unit :=
  c <- gets cls ;;
  match c with
  | CConcatReplay => ConcatReplay_epi_reset state
  | _ => Replay_epi_reset state
  end.

(** *** add_experience *)

Definition Replay_add_experience (state : State) (action : Action) (reward : float)
    (next_state : State) (done : bool) : M unit :=
  h <- gets head ;;
  n <- gets max_size ;;
  h' <- lift (py_mod (h + 1) n) ;;
  modify (set_head h') ;;
  ss <- gets states ;; i <- gets head ;;
  ss' <- lift (py_setitem ss i (Some (astype_float16 state))) ;;
  modify (set_states ss') ;;
  acs <- gets actions ;; i <- gets head ;;
  acs' <- lift (py_setitem acs i (Some action)) ;;
  modify (set_actions acs') ;;
  rs <- gets rewards ;; i <- gets head ;;
  rs' <- lift (py_setitem rs i (Some reward)) ;;
  modify (set_rewards rs') ;;
  modify (set_latest_next_state (Some (astype_float16 next_state))) ;;
  ds <- gets dones ;; i <- gets head ;;
  ds' <- lift (py_setitem ds i (Some done)) ;;
  modify (set_dones ds') ;;
  sz <- gets size ;; n <- gets max_size ;;
  (if sz <? n then modify (set_size (sz + 1)) else ret tt) ;;
  seen <- gets seen_size ;;
  modify (set_seen_size (seen + 1)).

Definition AtariReplay_add_experience (state : State) (action : Action) (reward : float)
    (next_state : State) (done : bool) : M unit :=
  Replay_add_experience state action (np_sign reward) next_state done.

Definition add_experience (state : State) (action : Action) (reward : float)
    (next_state : State) (done : bool) : M unit :=
  c <- gets cls ;;
  match c with
  | CAtariReplay => AtariReplay_add_experience state action reward next_state done
  | _ => Replay_add_experience state action reward next_state done
  end.

(** *** update *)

Definition update (state : State) (action : Action) (reward : float)
    (next_state : State) (done : bool) : M unit :=
  venv <- gets is_venv ;;
  if negb venv && np_isnan reward then
    epi_reset next_state
  else
    state' <- preprocess_state state false ;;
    next_state' <- preprocess_state next_state false ;;
    add_experience state' action reward next_state' done.

(** *** sample *)

Definition sample_idxs (batch_size : Z) (draws : list Z) : M (list Z) :=
  sz <- gets size ;;
  batch_idxs <- lift (np_random_randint sz batch_size draws) ;;
  cer <- gets use_cer ;;
  if cer then
    h <- gets head ;;
    lift (py_setitem batch_idxs (-1) h)
  else ret batch_idxs.

(** The scratch index array of [_sample_next_states], after the positions
    that hold [size] were set to 0. *)
Definition ns_scratch (sz : Z) (batch_idxs : list Z) : list Z :=
  let ns_batch_idxs := (fun i => i + 1) <$> batch_idxs in
  let latest_ns_locs := np_argwhere_eq ns_batch_idxs sz in
  let to_replace := negb (length latest_ns_locs =? 0)%nat in
  if to_replace then np_put ns_batch_idxs latest_ns_locs 0 else ns_batch_idxs.

Definition _sample_next_states (batch_idxs : list Z) : M (list (option State)) :=
  let ns_batch_idxs := (fun i => i + 1) <$> batch_idxs in
  sz <- gets size ;;
  let latest_ns_locs := np_argwhere_eq ns_batch_idxs sz in
  let to_replace := negb (length latest_ns_locs =? 0)%nat in
  let ns_batch_idxs :=
    if to_replace then np_put ns_batch_idxs latest_ns_locs 0 else ns_batch_idxs in
  ss <- gets states ;;
  next_states <- lift (cond_multiget ss ns_batch_idxs) ;;
  lns <- gets latest_next_state ;;
  ret (if to_replace then np_put next_states latest_ns_locs lns else next_states).

(** The batch: the dict with the five keys of [data_keys]. *)
Record Batch := mkBatch {
  batch_states : list (option State);
  batch_actions : list (option Action);
  batch_rewards : list (option float);
  batch_next_states : list (option State);
  batch_dones : list (option bool)
}.

Definition sample (draws : list Z) : M Batch :=
  bs <- gets batch_size ;;
  idxs <- sample_idxs bs draws ;;
  modify (set_batch_idxs (Some idxs)) ;;
  arr <- gets states ;; b_states <- lift (cond_multiget arr idxs) ;;
  arr <- gets actions ;; b_actions <- lift (cond_multiget arr idxs) ;;
  arr <- gets rewards ;; b_rewards <- lift (cond_multiget arr idxs) ;;
  b_next_states <- _sample_next_states idxs ;;
  arr <- gets dones ;; b_dones <- lift (cond_multiget arr idxs) ;;
  ret (mkBatch b_states b_actions b_rewards b_next_states b_dones).

(** *** Constructors *)

(** [collections.deque(maxlen=n)] assigned to [self.state_buffer]. *)
Definition new_state_buffer (maxlen : Z) : M unit :=
  if maxlen <? 0 then lift (Raise ValueError)
  else modify (set_state_buffer []) ;; modify (set_state_buffer_maxlen maxlen).

(** [Replay.__init__], once [memory_spec] and [body] are recorded. *)
Definition Replay_init : M unit :=
  new_state_buffer 0 ;;
  modify (set_batch_idxs None) ;;
  modify (set_size 0) ;;
  modify (set_seen_size 0) ;;
  modify (set_head (-1)) ;;
  reset.

(** The object before [__init__] has assigned anything but the options of
    [memory_spec] and the attributes of [body]. *)
Definition blank (c : klass) (batch_size max_size : Z) (use_cer is_venv : bool)
    (state_dim raw_state_dim : Z) : Replay :=
  mkReplay c batch_size max_size use_cer is_venv state_dim raw_state_dim
    None [] 0 None 0 0 (-1) [] [] [] [] [] None.

(** [cls(memory_spec, body)]: [len] is [seq_len] for SeqReplay and
    [concat_len] for ConcatReplay. *)
Definition new (c : klass) (batch_size max_size : Z) (use_cer is_venv : bool)
    (state_dim len : Z) : result unit * Replay :=
  match c with
  | CSeqReplay =>
      (Replay_init ;; new_state_buffer len ;; reset)
        (blank c batch_size max_size use_cer is_venv state_dim state_dim)
  | CConcatReplay =>
      (Replay_init ;; new_state_buffer len ;; reset)
        (blank c batch_size max_size use_cer is_venv (state_dim * len) state_dim)
  | CReplay | CAtariReplay | CImageReplay =>
      Replay_init (blank c batch_size max_size use_cer is_venv state_dim state_dim)
  end.

(** ** Runs of the memory *)

Inductive op :=
| OpReset
| OpEpiReset (state : State)
| OpPreprocess (state : State) (append : bool)
| OpUpdate (state : State) (action : Action) (reward : float) (next_state : State) (done : bool)
| OpAddExperience (state : State) (action : Action) (reward : float) (next_state : State)
    (done : bool)
| OpSample (draws : list Z).

Definition run (o : op) : M unit :=
  match o with
  | OpReset => reset
  | OpEpiReset s => epi_reset s
  | OpPreprocess s append => preprocess_state s append ;; ret tt
  | OpUpdate s a r ns d => update s a r ns d
  | OpAddExperience s a r ns d => add_experience s a r ns d
  | OpSample draws => sample draws ;; ret tt
  end.

(** The states a memory goes through: built by a constructor, then driven
    by calls that return. *)
Inductive reachable : Replay -> Prop :=
| reachable_new c bs ms cer venv dim len m :
    new c bs ms cer venv dim len = (Ok tt, m) -> reachable m
| reachable_step m o m' :
    reachable m -> run o m = (Ok tt, m') -> reachable m'.

(** ** Specification vocabulary *)

(** The content of the slot at position [i]: [None] when the slot is empty
    or the position is outside the list. *)
Definition slot {A} (l : list (option A)) (i : Z) : option A :=
  match l !! Z.to_nat i with
  | Some x => x
  | None => None
  end.

(** A transition handed to [add_experience]. *)
Record transition := mkTransition {
  t_state : State;
  t_action : Action;
  t_reward : float;
  t_next_state : State;
  t_done : bool
}.

(** Consecutive calls of [add_experience]. *)
Fixpoint inserts (ts : list transition) : M unit :=
  match ts with
  | [] => ret tt
  | t :: ts' =>
      add_experience (t_state t) (t_action t) (t_reward t) (t_next_state t) (t_done t) ;;
      inserts ts'
  end.

(** Consecutive calls of [sample], one list of draws for each. *)
Fixpoint samples (dss : list (list Z)) : M (list Batch) :=
  match dss with
  | [] => ret []
  | draws :: dss' =>
      b <- sample draws ;;
      bs <- samples dss' ;;
      ret (b :: bs)
  end.

(** The reward that a call of [add_experience] stores. *)
Definition stored_reward (c : klass) (reward : float) : float :=
  match c with
  | CAtariReplay => np_sign reward
  | _ => reward
  end.

(** The object after a call of [Replay.add_experience] that returns. *)
Definition inserted (state : State) (action : Action) (reward : float)
    (next_state : State) (done : bool) (m : Replay) : Replay :=
  let h := (head m + 1) mod max_size m in
  let k := Z.to_nat h in
  mkReplay (cls m) (batch_size m) (max_size m) (use_cer m) (is_venv m) (state_dim m)
    (raw_state_dim m) (last_state m) (state_buffer m) (state_buffer_maxlen m) (batch_idxs m)
    (if size m <? max_size m then size m + 1 else size m)
    (seen_size m + 1)
    h
    (<[k:=Some (astype_float16 state)]> (states m))
    (<[k:=Some action]> (actions m))
    (<[k:=Some reward]> (rewards m))
    (next_states m)
    (<[k:=Some done]> (dones m))
    (Some (astype_float16 next_state)).

(** The object after [Replay.reset], but for the sliding window. *)
Definition cleared (m : Replay) : Replay :=
  mkReplay (cls m) (batch_size m) (max_size m) (use_cer m) (is_venv m) (state_dim m)
    (raw_state_dim m) (last_state m) (state_buffer m) (state_buffer_maxlen m) (batch_idxs m)
    0
    (seen_size m)
    (-1)
    (py_list_repeat None (max_size m))
    (py_list_repeat None (max_size m))
    (py_list_repeat None (max_size m))
    (py_list_repeat None (max_size m))
    (py_list_repeat None (max_size m))
    None.

(** The ring buffer inside the object: everything but the options of the
    constructor, the sliding window and the record of the last draw. *)
Definition ring (m : Replay) :=
  (max_size m, size m, seen_size m, head m, states m, actions m, rewards m,
   next_states m, dones m, latest_next_state m).

(** The object but for the record of the last draw. *)
Definition but_batch_idxs (m : Replay) : Replay := set_batch_idxs None m.

(** The storage lists have [max_size] slots, [size] and [head] are in
    range and agree while the buffer fills, and the first [size] slots are
    occupied. *)
Record wf (m : Replay) : Prop := mkWf {
  wf_states : length (states m) = Z.to_nat (max_size m);
  wf_actions : length (actions m) = Z.to_nat (max_size m);
  wf_rewards : length (rewards m) = Z.to_nat (max_size m);
  wf_next_states : length (next_states m) = Z.to_nat (max_size m);
  wf_dones : length (dones m) = Z.to_nat (max_size m);
  wf_size_head :
    (size m = 0 /\ head m = -1) \/
    (1 <= size m <= max_size m /\ 0 <= head m < size m /\
     (size m < max_size m -> head m = size m - 1));
  wf_filled : forall k, 0 <= k < size m ->
    is_Some (slot (states m) k) /\ is_Some (slot (actions m) k) /\
    is_Some (slot (rewards m) k) /\ is_Some (slot (dones m) k);
  wf_latest : 1 <= size m -> is_Some (latest_next_state m)
}.

(** The next state of the transition stored at position [i], as the ring
    buffer defines it: the state one slot further, around the end of the
    storage, but for the most recent transition, whose next state is
    [latest_next_state]. *)
Definition successor_of (m : Replay) (i : Z) : option State :=
  if i =? head m then latest_next_state m
  else slot (states m) ((i + 1) mod max_size m).

(** The next state that [_sample_next_states] returns for position [i]. *)
Definition resolved_next_state (m : Replay) (i : Z) : option State :=
  if i + 1 =? size m then latest_next_state m
  else slot (states m) (i + 1).

(** The dimension of the zero states that refill the window at the start of
    an episode. *)
Definition window_dim (m : Replay) : Z :=
  match cls m with
  | CConcatReplay => raw_state_dim m
  | _ => state_dim m
  end.

(** The window that the refill loop builds in an emptied window of length
    [maxlen]: that many zero states of dimension [dim].  [np.zeros] is not
    called for a window of length 0, and the loop raises what [np.zeros]
    raises. *)
Definition zeros_window (maxlen dim : Z) : result (list State) :=
  match Z.to_nat maxlen with
  | O => Ok []
  | S n =>
      match np_zeros dim with
      | Ok z => Ok (replicate (S n) z)
      | Raise e => Raise e
      end
  end.

(** The window at the start of an episode. *)
Definition zero_window (m : Replay) : list State :=
  match zeros_window (state_buffer_maxlen m) (window_dim m) with
  | Ok w => w
  | Raise _ => []
  end.

(** [np.zeros] builds the zero states that [reset] and [epi_reset] put in
    the window of [m]. *)
Definition zeros_ok (m : Replay) : Prop :=
  (exists w, zeros_window (state_buffer_maxlen m) (state_dim m) = Ok w) /\
  (exists w, zeros_window (state_buffer_maxlen m) (window_dim m) = Ok w).

(** A memory as a constructor or [reset] leaves it. *)
Definition fresh (m0 : Replay) : Prop := exists m, reset m = (Ok tt, m0).

(** The indices that [sample_idxs] returns when [np.random.randint] drew
    the integers [draws]. *)
Definition drawn_idxs (m : Replay) (draws : list Z) : list Z :=
  if use_cer m then <[(length draws - 1)%nat:=head m]> draws else draws.

(** The batch gathered at the positions [idxs]. *)
Definition gathered (m : Replay) (idxs : list Z) : Batch :=
  mkBatch (slot (states m) <$> idxs) (slot (actions m) <$> idxs)
    (slot (rewards m) <$> idxs) (resolved_next_state m <$> idxs)
    (slot (dones m) <$> idxs).

(** What the constructor fixes: the class, the options of [memory_spec], the
    attributes of [body] and the length of the window. *)
Definition config (m : Replay) :=
  (cls m, batch_size m, max_size m, use_cer m, is_venv m, state_dim m, raw_state_dim m,
   state_buffer_maxlen m).

(** The length of the window that a constructor sets up. *)
Definition window_len (c : klass) (len : Z) : Z :=
  match c with
  | CSeqReplay | CConcatReplay => len
  | _ => 0
  end.

(** The state of the insert that follows the [k]-th one of [ts], or the
    next state of the [k]-th when it is the last. *)
Definition following_state (ts : list transition) (k : nat) (t : transition) : State :=
  match ts !! S k with
  | Some t' => t_state t'
  | None => t_next_state t
  end.

(** No slot at or above [size] holds anything, and the [next_states] list
    holds nothing at all. *)
Record vacant (m : Replay) : Prop := mkVacant {
  vacant_slots : forall k, size m <= k ->
    slot (states m) k = None /\ slot (actions m) k = None /\
    slot (rewards m) k = None /\ slot (dones m) k = None;
  vacant_next_states : next_states m = replicate (Z.to_nat (max_size m)) None
}.

(** A computation relates the object it starts from to the one it leaves,
    whether it returns or raises. *)
Definition respects (R : Replay -> Replay -> Prop) {A} (c : M A) : Prop :=
  forall m, R m (snd (c m)).

Definition same_ring (m m' : Replay) : Prop := ring m' = ring m.
Definition same_but_batch_idxs (m m' : Replay) : Prop := but_batch_idxs m' = but_batch_idxs m.
Definition seen_size_le (m m' : Replay) : Prop := seen_size m <= seen_size m'.
Definition same_config (m m' : Replay) : Prop := config m' = config m.

(** ** Lemmas on the primitives *)

Lemma py_mod_pos a b : 0 < b -> py_mod a b = Ok (a mod b).
Proof.
  intros Hb. unfold py_mod.
  destruct (Z.eqb_spec b 0); [lia | reflexivity].
Qed.

Lemma py_index_in_range len i :
  0 <= i < Z.of_nat len -> py_index len i = Ok (Z.to_nat i).
Proof.
  intros [H0 H1]. unfold py_index.
  apply Z.leb_le in H0. apply Z.ltb_lt in H1.
  rewrite H0, H1. reflexivity.
Qed.

Lemma py_index_last len :
  (0 < len)%nat -> py_index len (-1) = Ok (len - 1)%nat.
Proof.
  intros Hlen. unfold py_index.
  replace (0 <=? -1) with false by reflexivity. cbn [andb].
  replace (- Z.of_nat len <=? -1) with true by (symmetry; apply Z.leb_le; lia).
  replace (-1 <? 0) with true by reflexivity. cbn [andb].
  f_equal. lia.
Qed.

Lemma py_index_empty i : py_index 0 i = Raise IndexError.
Proof.
  unfold py_index. cbv zeta. change (Z.of_nat 0) with 0. change (- 0) with 0.
  destruct (Z.leb_spec 0 i), (Z.ltb_spec i 0); cbn [andb]; try reflexivity; lia.
Qed.

Lemma py_setitem_in_range {A} (l : list A) i v :
  0 <= i < Z.of_nat (length l) -> py_setitem l i v = Ok (<[Z.to_nat i:=v]> l).
Proof. intros H. unfold py_setitem. rewrite py_index_in_range by exact H. reflexivity. Qed.

Lemma py_setitem_last {A} (l : list A) v :
  (0 < length l)%nat -> py_setitem l (-1) v = Ok (<[(length l - 1)%nat:=v]> l).
Proof. intros H. unfold py_setitem. rewrite py_index_last by exact H. reflexivity. Qed.

Lemma py_setitem_empty {A} i (v : A) : py_setitem [] i v = Raise IndexError.
Proof. unfold py_setitem. cbn [length]. rewrite py_index_empty. reflexivity. Qed.

Lemma py_getitem_slot {A} (l : list (option A)) i :
  0 <= i < Z.of_nat (length l) -> py_getitem l i = Ok (slot l i).
Proof.
  intros H. unfold py_getitem, slot. rewrite py_index_in_range by exact H.
  destruct (l !! Z.to_nat i) eqn:E; [reflexivity |].
  apply lookup_ge_None in E. lia.
Qed.

Lemma cond_multiget_slots {A} (arr : list (option A)) idxs :
  Forall (fun i => 0 <= i < Z.of_nat (length arr)) idxs ->
  cond_multiget arr idxs = Ok (slot arr <$> idxs).
Proof.
  induction 1 as [|i idxs Hi _ IH]; [reflexivity |].
  cbn [cond_multiget fmap list_fmap]. rewrite py_getitem_slot by exact Hi.
  rewrite IH. reflexivity.
Qed.

Lemma np_argwhere_eq_from_elem k a v j :
  j ∈ np_argwhere_eq_from k a v <-> (k <= j)%nat /\ a !! (j - k)%nat = Some v.
Proof.
  revert k. induction a as [|x a IH]; intros k; cbn [np_argwhere_eq_from].
  - split; [intros H; inversion H | intros [_ H]; discriminate].
  - assert (Hcons : forall p, (k <= j)%nat /\ (x :: a) !! (j - k)%nat = Some p <->
              (j = k /\ x = p) \/ ((S k <= j)%nat /\ a !! (j - S k)%nat = Some p)).
    { intros p. destruct (decide (j = k)) as [->|Hne].
      - rewrite Nat.sub_diag. cbn [lookup list_lookup]. split.
        + intros [_ [= ->]]. left. done.
        + intros [[_ ->]|[Hlt _]]; [done | lia].
      - split.
        + intros [Hle Hl]. right. split; [lia |].
          replace (j - k)%nat with (S (j - S k)) in Hl by lia. exact Hl.
        + intros [[-> _]|[Hle Hl]]; [done |]. split; [lia |].
          replace (j - k)%nat with (S (j - S k)) by lia. exact Hl. }
    rewrite Hcons. destruct (Z.eqb_spec x v) as [->|Hxv].
    + rewrite elem_of_cons, IH. split.
      * intros [->|H]; [left; done | right; exact H].
      * intros [[-> _]|H]; [left; done | right; exact H].
    + rewrite IH. split.
      * intros H. right. exact H.
      * intros [[_ Hx]|H]; [done | exact H].
Qed.

Lemma np_argwhere_eq_elem a v j :
  j ∈ np_argwhere_eq a v <-> a !! j = Some v.
Proof.
  unfold np_argwhere_eq. rewrite np_argwhere_eq_from_elem, Nat.sub_0_r.
  split; [intros [_ H]; exact H | intros H; split; [lia | exact H]].
Qed.

Lemma np_put_lookup {A} (b : list A) locs w j :
  np_put b locs w !! j =
  if decide (j ∈ locs) then (fun _ => w) <$> (b !! j) else b !! j.
Proof.
  unfold np_put. revert b. induction locs as [|k locs IH]; intros b; cbn [foldl].
  - destruct (decide (j ∈ [])) as [H|_]; [inversion H | reflexivity].
  - rewrite IH. destruct (decide (j = k)) as [->|Hne].
    + destruct (decide (k ∈ k :: locs)) as [_|Hn]; [| exfalso; apply Hn; left].
      destruct (b !! k) eqn:E.
      * rewrite list_lookup_insert_eq by (eapply lookup_lt_Some; exact E).
        destruct (decide (k ∈ locs)); reflexivity.
      * rewrite list_insert_ge by (apply lookup_ge_None; exact E). rewrite E.
        destruct (decide (k ∈ locs)); reflexivity.
    + rewrite list_lookup_insert_ne by congruence.
      destruct (decide (j ∈ locs)) as [Hin|Hin], (decide (j ∈ k :: locs)) as [Hin'|Hin'];
        try reflexivity.
      * exfalso. apply Hin'. right. exact Hin.
      * exfalso. apply elem_of_cons in Hin' as [->|?]; done.
Qed.

Lemma np_put_nil {A} (b : list A) w : np_put b [] w = b.
Proof. reflexivity. Qed.

(** Writing [w] at the positions where [a] holds [v]. *)
Lemma np_put_argwhere {A} (a : list Z) (b : list A) v w :
  length b = length a ->
  np_put b (np_argwhere_eq a v) w = zip_with (fun x y => if x =? v then w else y) a b.
Proof.
  intros Hlen. apply list_eq. intros j.
  rewrite np_put_lookup, lookup_zip_with.
  destruct (a !! j) as [x|] eqn:Ea; cbn [mbind option_bind].
  - destruct (b !! j) as [y|] eqn:Eb; cbn [mbind option_bind fmap option_fmap option_map].
    + destruct (decide (j ∈ np_argwhere_eq a v)) as [Hin|Hin].
      * apply np_argwhere_eq_elem in Hin. rewrite Ea in Hin. injection Hin as ->.
        rewrite Z.eqb_refl. reflexivity.
      * destruct (Z.eqb_spec x v) as [->|_]; [| reflexivity].
        exfalso. apply Hin, np_argwhere_eq_elem. exact Ea.
    + apply lookup_ge_None in Eb. apply lookup_lt_Some in Ea. lia.
  - destruct (decide (j ∈ np_argwhere_eq a v)) as [Hin|Hin].
    + apply np_argwhere_eq_elem in Hin. congruence.
    + apply lookup_ge_None in Ea. apply lookup_ge_None. lia.
Qed.

(** ** Lemmas on computations *)

Lemma bind_Ok_inv {A B} (c : M A) (k : A -> M B) m b m' :
  (x <- c ;; k x) m = (Ok b, m') ->
  exists a m1, c m = (Ok a, m1) /\ k a m1 = (Ok b, m').
Proof.
  unfold bind. destruct (c m) as [[a|e] m1]; intros H; [eauto | discriminate].
Qed.

Lemma bind_Ok {A B} (c : M A) (k : A -> M B) m a m1 :
  c m = (Ok a, m1) -> (x <- c ;; k x) m = k a m1.
Proof. unfold bind. intros ->. reflexivity. Qed.

Lemma bind_Raise {A B} (c : M A) (k : A -> M B) m e m1 :
  c m = (Raise e, m1) -> (x <- c ;; k x) m = (Raise e, m1).
Proof. unfold bind. intros ->. reflexivity. Qed.

Section Respects.

Variable R : Replay -> Replay -> Prop.
Hypothesis R_refl : forall m, R m m.
Hypothesis R_trans : forall m1 m2 m3, R m1 m2 -> R m2 m3 -> R m1 m3.

Lemma respects_ret {A} (a : A) : respects R (ret a).
Proof. intros m. apply R_refl. Qed.

Lemma respects_gets {A} (f : Replay -> A) : respects R (gets f).
Proof. intros m. apply R_refl. Qed.

Lemma respects_lift {A} (r : result A) : respects R (lift r).
Proof. intros m. apply R_refl. Qed.

Lemma respects_modify f : (forall m, R m (f m)) -> respects R (modify f).
Proof. intros H m. apply H. Qed.

Lemma respects_bind {A B} (c : M A) (k : A -> M B) :
  respects R c -> (forall a, respects R (k a)) -> respects R (x <- c ;; k x).
Proof.
  intros Hc Hk m. unfold bind. specialize (Hc m).
  destruct (c m) as [[a|e] m1]; cbn [snd] in *; [| exact Hc].
  eapply R_trans; [exact Hc | apply Hk].
Qed.

Lemma respects_for_range n (body : M unit) :
  respects R body -> respects R (for_range n body).
Proof.
  intros Hb. induction n as [|n IH]; cbn [for_range].
  - apply respects_ret.
  - apply respects_bind; [exact Hb | intros _; exact IH].
Qed.

End Respects.

Lemma same_ring_refl m : same_ring m m.
Proof. reflexivity. Qed.

Lemma same_ring_trans m1 m2 m3 : same_ring m1 m2 -> same_ring m2 m3 -> same_ring m1 m3.
Proof. unfold same_ring. congruence. Qed.

Lemma same_but_batch_idxs_refl m : same_but_batch_idxs m m.
Proof. reflexivity. Qed.

Lemma same_but_batch_idxs_trans m1 m2 m3 :
  same_but_batch_idxs m1 m2 -> same_but_batch_idxs m2 m3 -> same_but_batch_idxs m1 m3.
Proof. unfold same_but_batch_idxs. congruence. Qed.

Lemma seen_size_le_refl m : seen_size_le m m.
Proof. unfold seen_size_le. lia. Qed.

Lemma seen_size_le_trans m1 m2 m3 :
  seen_size_le m1 m2 -> seen_size_le m2 m3 -> seen_size_le m1 m3.
Proof. unfold seen_size_le. lia. Qed.

Lemma same_but_batch_idxs_ring m m' : same_but_batch_idxs m m' -> same_ring m m'.
Proof.
  unfold same_but_batch_idxs, same_ring. intros H.
  change (ring (but_batch_idxs m') = ring (but_batch_idxs m)). rewrite H. reflexivity.
Qed.

(** Splits a computation into its calls and closes the primitive ones. *)
Ltac respects_go Hrefl Htrans :=
  repeat match goal with
         | |- respects _ (ret _) => apply (respects_ret _ Hrefl)
         | |- respects _ (gets _) => apply (respects_gets _ Hrefl)
         | |- respects _ (lift _) => apply (respects_lift _ Hrefl)
         | |- respects _ (modify _) =>
             apply respects_modify; intros ?;
             solve [ exact eq_refl | unfold seen_size_le; cbn; lia ]
         | |- respects _ (for_range _ _) => apply (respects_for_range _ Hrefl Htrans)
         | |- respects _ (bind _ _) => apply (respects_bind _ Htrans); [| intros ?]
         | |- respects _ (let _ := _ in _) => cbv zeta
         | |- respects _ (if ?b then _ else _) => destruct b
         | |- respects _ (match ?c with _ => _ end) => destruct c
         end.

Lemma preprocess_state_same_ring s append : respects same_ring (preprocess_state s append).
Proof.
  unfold preprocess_state, SeqReplay_preprocess_state, ConcatReplay_preprocess_state,
    ImageReplay_preprocess_state, Memory_preprocess_state, preprocess_append,
    state_buffer_append.
  respects_go same_ring_refl same_ring_trans.
Qed.

Lemma epi_reset_same_ring s : respects same_ring (epi_reset s).
Proof.
  unfold epi_reset, ConcatReplay_epi_reset, Replay_epi_reset, Memory_epi_reset,
    state_buffer_fill_zeros, state_buffer_clear, state_buffer_append.
  respects_go same_ring_refl same_ring_trans; apply preprocess_state_same_ring.
Qed.

Lemma sample_same_but_batch_idxs draws : respects same_but_batch_idxs (sample draws).
Proof.
  unfold sample, sample_idxs, _sample_next_states.
  respects_go same_but_batch_idxs_refl same_but_batch_idxs_trans.
Qed.

Lemma samples_same_but_batch_idxs dss : respects same_but_batch_idxs (samples dss).
Proof.
  induction dss as [|draws dss IH]; cbn [samples].
  - apply (respects_ret _ same_but_batch_idxs_refl).
  - respects_go same_but_batch_idxs_refl same_but_batch_idxs_trans.
    + apply sample_same_but_batch_idxs.
    + exact IH.
Qed.

(** ** reset *)

Lemma for_range_append_fill n j dim x m :
  np_zeros dim = Ok x ->
  state_buffer m = replicate j x ->
  (j + n <= Z.to_nat (state_buffer_maxlen m))%nat ->
  for_range n (z <- lift (np_zeros dim) ;; state_buffer_append z) m =
  (Ok tt, set_state_buffer (replicate (j + n) x) m).
Proof.
  intros Hz. revert j m. induction n as [|n IH]; intros j m Hbuf Hlen; cbn [for_range].
  - rewrite Nat.add_0_r, <- Hbuf. destruct m; reflexivity.
  - assert (Hbody : (z <- lift (np_zeros dim) ;; state_buffer_append z) m =
              (Ok tt, set_state_buffer
                        (deque_append (state_buffer_maxlen m) (state_buffer m) x) m)).
    { unfold bind, lift. rewrite Hz. reflexivity. }
    rewrite (bind_Ok _ _ _ _ _ Hbody).
    rewrite (IH (S j)).
    + replace (S j + n)%nat with (j + S n)%nat by lia. reflexivity.
    + cbn [state_buffer set_state_buffer]. rewrite Hbuf. unfold deque_append.
      rewrite length_app, length_replicate. cbn [length].
      replace (j + 1 - Z.to_nat (state_buffer_maxlen m))%nat with 0%nat by lia.
      rewrite drop_0. symmetry. apply replicate_S_end.
    + cbn [state_buffer_maxlen set_state_buffer]. lia.
Qed.

Lemma state_buffer_fill_zeros_cleared dim m :
  state_buffer m = [] ->
  state_buffer_fill_zeros dim m =
  match zeros_window (state_buffer_maxlen m) dim with
  | Ok w => (Ok tt, set_state_buffer w m)
  | Raise e => (Raise e, m)
  end.
Proof.
  intros Hbuf. unfold state_buffer_fill_zeros, zeros_window. unfold bind at 1. unfold gets at 1.
  destruct (Z.to_nat (state_buffer_maxlen m)) as [|n] eqn:En.
  - cbn [for_range ret]. rewrite <- Hbuf. destruct m; reflexivity.
  - pose proof (for_range_append_fill (S n) 0 dim) as Hfill.
    destruct (np_zeros dim) as [z|e].
    + apply (Hfill z m eq_refl Hbuf). lia.
    + reflexivity.
Qed.

Lemma Replay_reset_window m :
  Replay_reset m =
  match zeros_window (state_buffer_maxlen m) (state_dim m) with
  | Ok w => (Ok tt, set_state_buffer w (cleared m))
  | Raise e => (Raise e, set_state_buffer [] (cleared m))
  end.
Proof.
  unfold Replay_reset, state_buffer_clear. cbn [bind gets modify].
  rewrite state_buffer_fill_zeros_cleared by reflexivity.
  cbn [state_buffer_maxlen set_state_buffer set_head set_size set_latest_next_state
       set_dones set_next_states set_rewards set_actions set_states state_dim].
  destruct (zeros_window _ _); reflexivity.
Qed.

(** [reset] in closed form: the ring buffer is cleared, then the window is
    refilled, twice for [ConcatReplay]. *)
Lemma reset_closed m :
  reset m =
  match zeros_window (state_buffer_maxlen m) (state_dim m) with
  | Ok w =>
      match cls m with
      | CConcatReplay =>
          match zeros_window (state_buffer_maxlen m) (raw_state_dim m) with
          | Ok w' => (Ok tt, set_state_buffer w' (cleared m))
          | Raise e => (Raise e, set_state_buffer [] (cleared m))
          end
      | _ => (Ok tt, set_state_buffer w (cleared m))
      end
  | Raise e => (Raise e, set_state_buffer [] (cleared m))
  end.
Proof.
  unfold reset. unfold bind at 1. unfold gets at 1.
  pose proof (Replay_reset_window m) as Hbase.
  destruct (zeros_window (state_buffer_maxlen m) (state_dim m)) as [w|e].
  - destruct (cls m); try exact Hbase.
    unfold ConcatReplay_reset. rewrite (bind_Ok _ _ _ _ _ Hbase).
    unfold state_buffer_clear. cbn [bind gets modify].
    rewrite state_buffer_fill_zeros_cleared by reflexivity.
    cbn [state_buffer_maxlen set_state_buffer cleared raw_state_dim].
    destruct (zeros_window _ _); reflexivity.
  - destruct (cls m); try exact Hbase.
    unfold ConcatReplay_reset. rewrite (bind_Raise _ _ _ _ _ Hbase). reflexivity.
Qed.

(** Returning or raising, [reset] leaves the ring buffer cleared. *)
Lemma reset_spec m :
  exists buf, snd (reset m) = set_state_buffer buf (cleared m).
Proof.
  rewrite reset_closed.
  destruct (zeros_window _ (state_dim m)); [| eexists; reflexivity].
  destruct (cls m); try (eexists; reflexivity).
  destruct (zeros_window _ (raw_state_dim m)); eexists; reflexivity.
Qed.

Lemma reset_Ok_spec m m' :
  reset m = (Ok tt, m') -> m' = set_state_buffer (zero_window m) (cleared m) /\ zeros_ok m.
Proof.
  rewrite reset_closed. unfold zero_window, zeros_ok, window_dim.
  destruct (cls m);
    destruct (zeros_window (state_buffer_maxlen m) (state_dim m)) as [w|e];
    try discriminate; try (intros [= <-]; eauto).
  destruct (zeros_window (state_buffer_maxlen m) (raw_state_dim m)) as [w'|e'];
    [| discriminate].
  intros [= <-]. eauto.
Qed.

Lemma reset_window m :
  zeros_ok m -> reset m = (Ok tt, set_state_buffer (zero_window m) (cleared m)).
Proof.
  rewrite reset_closed. unfold zero_window, zeros_ok, window_dim.
  intros [[w Hw] [w' Hw']]. revert Hw'.
  destruct (cls m); intros Hw'; rewrite Hw; try reflexivity.
  rewrite Hw'. reflexivity.
Qed.

Lemma same_config_zeros_ok m m' : same_config m m' -> zeros_ok m -> zeros_ok m'.
Proof.
  unfold same_config, config, zeros_ok, window_dim.
  intros [= Hc _ _ _ _ Hd Hr Hl]. rewrite Hc, Hd, Hr, Hl. tauto.
Qed.

(** ** add_experience *)

Lemma Replay_add_experience_ok s a r ns d m :
  wf m -> 0 < max_size m ->
  Replay_add_experience s a r ns d m = (Ok tt, inserted s a r ns d m).
Proof.
  intros [Hs Ha Hr _ Hd _ _ _] Hn.
  assert (Hh : 0 <= (head m + 1) mod max_size m < max_size m)
    by (apply Z.mod_pos_bound; exact Hn).
  unfold Replay_add_experience, inserted, bind, gets, modify, lift, ret.
  rewrite py_mod_pos by exact Hn.
  cbn [head states actions rewards dones size max_size seen_size
       set_head set_states set_actions set_rewards set_dones set_latest_next_state
       set_size set_seen_size].
  rewrite !py_setitem_in_range by lia.
  destruct (size m <? max_size m); reflexivity.
Qed.

Lemma Replay_add_experience_raises s a r ns d m :
  wf m -> max_size m <= 0 ->
  exists e m', Replay_add_experience s a r ns d m = (Raise e, m').
Proof.
  intros [Hs _ _ _ _ _ _ _] Hn.
  unfold Replay_add_experience, bind, gets, modify, lift, ret.
  unfold py_mod. destruct (Z.eqb_spec (max_size m) 0) as [E|E]; [eauto |].
  cbn [head states set_head].
  destruct (states m) as [|x l]; [| cbn [length] in Hs; lia].
  rewrite py_setitem_empty. eauto.
Qed.

Lemma add_experience_unfold s a r ns d m :
  add_experience s a r ns d m =
  Replay_add_experience s a (stored_reward (cls m) r) ns d m.
Proof.
  unfold add_experience, AtariReplay_add_experience, stored_reward, bind, gets.
  destruct (cls m); reflexivity.
Qed.

Lemma add_experience_ok s a r ns d m :
  wf m -> 0 < max_size m ->
  add_experience s a r ns d m = (Ok tt, inserted s a (stored_reward (cls m) r) ns d m).
Proof.
  intros Hwf Hn. rewrite add_experience_unfold.
  apply Replay_add_experience_ok; assumption.
Qed.

Lemma add_experience_Ok_inv s a r ns d m m' :
  wf m -> add_experience s a r ns d m = (Ok tt, m') ->
  0 < max_size m /\ m' = inserted s a (stored_reward (cls m) r) ns d m.
Proof.
  intros Hwf H. destruct (Z.ltb_spec 0 (max_size m)) as [Hn|Hn].
  - split; [exact Hn |]. rewrite add_experience_ok in H by assumption. congruence.
  - rewrite add_experience_unfold in H.
    destruct (Replay_add_experience_raises s a (stored_reward (cls m) r) ns d m Hwf Hn)
      as (e & m1 & He).
    congruence.
Qed.

(** ** The invariant *)

Lemma slot_insert {A} (l : list (option A)) h k v :
  0 <= h < Z.of_nat (length l) -> 0 <= k ->
  slot (<[Z.to_nat h:=v]> l) k = if k =? h then v else slot l k.
Proof.
  intros Hh Hk. unfold slot. destruct (Z.eqb_spec k h) as [->|Hne].
  - rewrite list_lookup_insert_eq by lia. reflexivity.
  - rewrite list_lookup_insert_ne by lia. reflexivity.
Qed.

Lemma wf_same_ring m m' : same_ring m m' -> wf m -> wf m'.
Proof.
  unfold same_ring, ring. intros H [Hs Ha Hr Hns Hd Hsh Hf Hl].
  injection H as Hmax Hsize _ Hhead Hst Hac Hre Hnst Hdo Hlat.
  constructor; rewrite ?Hmax, ?Hsize, ?Hhead, ?Hst, ?Hac, ?Hre, ?Hnst, ?Hdo, ?Hlat;
    assumption.
Qed.

Lemma wf_cleared m buf : wf (set_state_buffer buf (cleared m)).
Proof.
  constructor;
    cbn [set_state_buffer cleared states actions rewards next_states dones size head
         max_size latest_next_state];
    try (unfold py_list_repeat; apply length_replicate).
  - left. split; reflexivity.
  - intros k Hk. lia.
  - intros H. lia.
Qed.

Lemma wf_inserted s a r ns d m :
  wf m -> 0 < max_size m -> wf (inserted s a r ns d m).
Proof.
  intros [Hs Ha Hr Hns Hd Hsh Hf Hl] Hn.
  assert (Hh : 0 <= (head m + 1) mod max_size m < max_size m)
    by (apply Z.mod_pos_bound; exact Hn).
  constructor;
    cbn [inserted states actions rewards next_states dones size head max_size
         latest_next_state];
    rewrite ?length_insert; try assumption.
  - right. destruct Hsh as [[Hsz Hhd]|(Hsz & Hhd & Hfill)].
    + rewrite Hsz, Hhd. replace (-1 + 1) with 0 by lia. rewrite Z.mod_0_l by lia.
      destruct (Z.ltb_spec 0 (max_size m)); lia.
    + destruct (Z.ltb_spec (size m) (max_size m)) as [Hlt|Hge].
      * rewrite (Hfill Hlt). replace (size m - 1 + 1) with (size m) by lia.
        rewrite Z.mod_small by lia. lia.
      * lia.
  - intros k Hk. rewrite !slot_insert by lia.
    destruct (Z.eqb_spec k ((head m + 1) mod max_size m)) as [->|Hne];
      [repeat split; eexists; reflexivity |].
    apply Hf. destruct Hsh as [[Hsz Hhd]|(Hsz & Hhd & Hfill)].
    + rewrite Hsz, Hhd in *. replace (-1 + 1) with 0 in Hne by lia.
      rewrite Z.mod_0_l in Hne by lia.
      destruct (Z.ltb_spec 0 (max_size m)); lia.
    + destruct (Z.ltb_spec (size m) (max_size m)) as [Hlt|Hge]; [| lia].
      rewrite (Hfill Hlt) in Hne. replace (size m - 1 + 1) with (size m) in Hne by lia.
      rewrite Z.mod_small in Hne by lia. lia.
  - intros _. eexists. reflexivity.
Qed.

Lemma update_episode_start s a r ns d m :
  is_venv m = false -> np_isnan r = true ->
  update s a r ns d m = epi_reset ns m.
Proof.
  intros Hv Hr. unfold update. unfold bind at 1. unfold gets at 1.
  rewrite Hv, Hr. reflexivity.
Qed.

Lemma update_insert s a r ns d m :
  is_venv m = true \/ np_isnan r = false ->
  update s a r ns d m =
  (s' <- preprocess_state s false ;;
   ns' <- preprocess_state ns false ;;
   add_experience s' a r ns' d) m.
Proof.
  intros H. unfold update. unfold bind at 1. unfold gets at 1.
  destruct H as [-> | ->]; [reflexivity |].
  rewrite andb_false_r. reflexivity.
Qed.

Lemma respects_Ok {A} R (c : M A) m a m' : respects R c -> c m = (Ok a, m') -> R m m'.
Proof. intros H E. specialize (H m). rewrite E in H. exact H. Qed.

Lemma run_wf o m m' : wf m -> run o m = (Ok tt, m') -> wf m'.
Proof.
  intros Hwf H. destruct o as [|s|s ap|s a r ns d|s a r ns d|draws]; cbn [run] in H.
  - apply reset_Ok_spec in H as [-> _]. apply wf_cleared.
  - eapply wf_same_ring; [| exact Hwf].
    eapply respects_Ok; [apply epi_reset_same_ring | exact H].
  - apply bind_Ok_inv in H as (x & m1 & H1 & H2). injection H2 as <-.
    eapply wf_same_ring; [| exact Hwf].
    eapply respects_Ok; [apply preprocess_state_same_ring | exact H1].
  - destruct (is_venv m) eqn:Hv; [| destruct (np_isnan r) eqn:Hr].
    2: { rewrite update_episode_start in H by assumption.
         eapply wf_same_ring; [| exact Hwf].
         eapply respects_Ok; [apply epi_reset_same_ring | exact H]. }
    all: rewrite update_insert in H by auto.
    all: apply bind_Ok_inv in H as (s' & m1 & H1 & H).
    all: apply bind_Ok_inv in H as (ns' & m2 & H2 & H).
    all: assert (Hwf2 : wf m2)
      by (eapply wf_same_ring;
          [eapply respects_Ok; [apply preprocess_state_same_ring | exact H2] |];
          eapply wf_same_ring;
          [eapply respects_Ok; [apply preprocess_state_same_ring | exact H1] |];
          exact Hwf).
    all: apply add_experience_Ok_inv in H as [Hn ->]; [| exact Hwf2].
    all: apply wf_inserted; assumption.
  - apply add_experience_Ok_inv in H as [Hn ->]; [| exact Hwf].
    apply wf_inserted; assumption.
  - apply bind_Ok_inv in H as (x & m1 & H1 & H2). injection H2 as <-.
    eapply wf_same_ring; [| exact Hwf].
    apply same_but_batch_idxs_ring.
    eapply respects_Ok; [apply sample_same_but_batch_idxs | exact H1].
Qed.

(** A computation that ends with a call of [reset]. *)
Lemma ends_with_reset_bind {A} (c : M A) (k : M unit) m m' :
  (forall m1, k m1 = (Ok tt, m') -> exists m2, reset m2 = (Ok tt, m')) ->
  (c ;; k) m = (Ok tt, m') -> exists m2, reset m2 = (Ok tt, m').
Proof.
  intros Hk H. unfold bind in H. destruct (c m) as [[x|e] m1]; [| discriminate].
  exact (Hk m1 H).
Qed.

Lemma Replay_init_ends_with_reset m m' :
  Replay_init m = (Ok tt, m') -> exists m2, reset m2 = (Ok tt, m').
Proof.
  unfold Replay_init.
  apply ends_with_reset_bind. intros m1.
  apply ends_with_reset_bind. intros m2.
  apply ends_with_reset_bind. intros m3.
  apply ends_with_reset_bind. intros m4.
  apply ends_with_reset_bind. intros m5 H. exists m5. exact H.
Qed.

Lemma new_ends_with_reset c bs ms cer venv dim len m :
  new c bs ms cer venv dim len = (Ok tt, m) -> exists m2, reset m2 = (Ok tt, m).
Proof.
  unfold new. destruct c.
  - apply Replay_init_ends_with_reset.
  - apply (ends_with_reset_bind Replay_init). intros m1.
    apply (ends_with_reset_bind (new_state_buffer len)). intros m2 H.
    exists m2. exact H.
  - apply (ends_with_reset_bind Replay_init). intros m1.
    apply (ends_with_reset_bind (new_state_buffer len)). intros m2 H.
    exists m2. exact H.
  - apply Replay_init_ends_with_reset.
  - apply Replay_init_ends_with_reset.
Qed.

Lemma new_wf c bs ms cer venv dim len m :
  new c bs ms cer venv dim len = (Ok tt, m) -> wf m.
Proof.
  intros H. apply new_ends_with_reset in H as [m1 H1].
  apply reset_Ok_spec in H1 as [-> _]. apply wf_cleared.
Qed.

Lemma reachable_wf m : reachable m -> wf m.
Proof.
  induction 1 as [c bs ms cer venv dim len m H | m o m' _ IH H].
  - eapply new_wf; exact H.
  - eapply run_wf; eassumption.
Qed.

(** ** seen_size *)

Lemma Replay_add_experience_seen_size_le s a r ns d :
  respects seen_size_le (Replay_add_experience s a r ns d).
Proof.
  intros m. unfold seen_size_le, Replay_add_experience, bind, gets, modify, lift, ret.
  repeat match goal with
         | |- context [match ?x with Ok _ => _ | Raise _ => _ end] => destruct x
         | |- context [if ?b then _ else _] => destruct b
         end; cbn; lia.
Qed.

Lemma add_experience_seen_size_le s a r ns d :
  respects seen_size_le (add_experience s a r ns d).
Proof.
  intros m. rewrite add_experience_unfold. apply Replay_add_experience_seen_size_le.
Qed.

Lemma preprocess_state_seen_size_le s append :
  respects seen_size_le (preprocess_state s append).
Proof.
  unfold preprocess_state, SeqReplay_preprocess_state, ConcatReplay_preprocess_state,
    ImageReplay_preprocess_state, Memory_preprocess_state, preprocess_append,
    state_buffer_append.
  respects_go seen_size_le_refl seen_size_le_trans.
Qed.

Lemma run_seen_size_le o : respects seen_size_le (run o).
Proof.
  destruct o as [|s|s ap|s a r ns d|s a r ns d|draws]; cbn [run].
  - intros m. destruct (reset_spec m) as [buf ->]. unfold seen_size_le.
    cbn [seen_size set_state_buffer cleared]. lia.
  - unfold epi_reset, ConcatReplay_epi_reset, Replay_epi_reset, Memory_epi_reset,
      state_buffer_fill_zeros, state_buffer_clear, state_buffer_append.
    respects_go seen_size_le_refl seen_size_le_trans; apply preprocess_state_seen_size_le.
  - respects_go seen_size_le_refl seen_size_le_trans; apply preprocess_state_seen_size_le.
  - unfold update, epi_reset, ConcatReplay_epi_reset, Replay_epi_reset, Memory_epi_reset,
      state_buffer_fill_zeros, state_buffer_clear, state_buffer_append.
    respects_go seen_size_le_refl seen_size_le_trans;
      first [apply preprocess_state_seen_size_le | apply add_experience_seen_size_le].
  - apply add_experience_seen_size_le.
  - unfold sample, sample_idxs, _sample_next_states.
    respects_go seen_size_le_refl seen_size_le_trans.
Qed.

Lemma Replay_add_experience_same_config s a r ns d :
  respects same_config (Replay_add_experience s a r ns d).
Proof.
  unfold Replay_add_experience.
  respects_go (fun m => eq_refl (config m))
    (fun m1 m2 m3 (H1 : same_config m1 m2) (H2 : same_config m2 m3) =>
       eq_trans H2 H1).
Qed.

Lemma run_same_config o : respects same_config (run o).
Proof.
  pose proof (fun m => eq_refl (config m)) as Hrefl.
  pose proof (fun m1 m2 m3 (H1 : same_config m1 m2) (H2 : same_config m2 m3) =>
                eq_trans H2 H1) as Htrans.
  destruct o as [|s|s ap|s a r ns d|s a r ns d|draws]; cbn [run];
    unfold update, add_experience, AtariReplay_add_experience, reset, ConcatReplay_reset,
      Replay_reset, epi_reset, ConcatReplay_epi_reset, Replay_epi_reset, Memory_epi_reset,
      preprocess_state, SeqReplay_preprocess_state, ConcatReplay_preprocess_state,
      ImageReplay_preprocess_state, Memory_preprocess_state, preprocess_append,
      state_buffer_fill_zeros, state_buffer_clear, state_buffer_append,
      sample, sample_idxs, _sample_next_states;
    respects_go Hrefl Htrans; apply Replay_add_experience_same_config.
Qed.

(** A memory that a constructor returned has its zero states built by
    [np.zeros], and the dimensions and the window length never change. *)
Lemma reachable_zeros_ok m : reachable m -> zeros_ok m.
Proof.
  induction 1 as [c bs ms cer venv dim len m H | m o m' _ IH H].
  - apply new_ends_with_reset in H as [m1 H1].
    apply reset_Ok_spec in H1 as [-> Hok]. exact Hok.
  - eapply same_config_zeros_ok; [| exact IH].
    eapply respects_Ok; [apply run_same_config | exact H].
Qed.

(** ** sample *)

Lemma zip_with_fmap_same {A B C D} (h : B -> C -> D) (f : A -> B) (k : A -> C) (l : list A) :
  zip_with h (f <$> l) (k <$> l) = (fun x => h (f x) (k x)) <$> l.
Proof. induction l as [|x l IH]; [reflexivity |]. cbn. rewrite IH. reflexivity. Qed.

Lemma if_to_replace {A} (a : list A) locs w :
  (if negb (length locs =? 0)%nat then np_put a locs w else a) = np_put a locs w.
Proof. destruct locs; reflexivity. Qed.

Lemma ns_scratch_spec sz idxs :
  ns_scratch sz idxs = (fun i => if i + 1 =? sz then 0 else i + 1) <$> idxs.
Proof.
  unfold ns_scratch. cbv zeta. rewrite if_to_replace.
  rewrite np_put_argwhere by reflexivity.
  apply (zip_with_fmap_same (fun x y => if x =? sz then 0 else y)).
Qed.

Lemma _sample_next_states_scratch idxs m :
  _sample_next_states idxs m =
  (next_states <- lift (cond_multiget (states m) (ns_scratch (size m) idxs)) ;;
   ret (np_put next_states (np_argwhere_eq ((fun i => i + 1) <$> idxs) (size m))
          (latest_next_state m))) m.
Proof.
  unfold _sample_next_states, ns_scratch, bind, gets, lift, ret. cbv zeta.
  destruct (cond_multiget _ _); [| reflexivity].
  rewrite if_to_replace. reflexivity.
Qed.

Lemma _sample_next_states_spec idxs m :
  wf m -> Forall (fun i => 0 <= i < size m) idxs ->
  _sample_next_states idxs m = (Ok (resolved_next_state m <$> idxs), m).
Proof.
  intros Hwf Hidxs. rewrite _sample_next_states_scratch, ns_scratch_spec.
  unfold bind, lift, ret. rewrite cond_multiget_slots.
  - f_equal. f_equal. rewrite <- list_fmap_compose.
    rewrite np_put_argwhere by (rewrite !length_fmap; reflexivity).
    rewrite (zip_with_fmap_same (fun x y => if x =? size m then latest_next_state m else y)).
    apply list_fmap_ext. intros j i _. unfold resolved_next_state. cbn.
    destruct (Z.eqb_spec (i + 1) (size m)); reflexivity.
  - apply Forall_fmap. eapply Forall_impl; [exact Hidxs |].
    intros i Hi. cbn beta in Hi |- *. destruct Hwf as [Hs _ _ _ _ Hsh _ _]. rewrite Hs.
    destruct Hsh as [[Hsz _]|(Hsz & _ & _)]; [lia |].
    unfold compose. destruct (Z.eqb_spec (i + 1) (size m)); lia.
Qed.

Lemma np_random_randint_words high n draws :
  1 <= high -> 0 <= n ->
  np_random_randint high n draws =
  Ok ((fun j => randint_word high (nth j draws 0)) <$> seq 0 (Z.to_nat n)).
Proof.
  intros Hh Hn. unfold np_random_randint.
  destruct (Z.ltb_spec n 0); [lia |].
  destruct (Z.leb_spec high 0); [lia | reflexivity].
Qed.

Lemma np_random_randint_ok high n draws :
  1 <= high -> randint_spec high n draws -> np_random_randint high n draws = Ok draws.
Proof.
  intros Hh [Hlen Hd]. rewrite np_random_randint_words by lia. f_equal.
  apply list_eq. intros j. rewrite list_lookup_fmap.
  destruct (draws !! j) as [d|] eqn:Ed.
  - pose proof (lookup_lt_Some _ _ _ Ed) as Hj.
    rewrite lookup_seq_lt by lia. cbn [fmap option_fmap option_map Nat.add].
    rewrite (nth_lookup_Some _ _ _ _ Ed). unfold randint_word.
    rewrite Z.mod_small; [reflexivity |].
    exact (proj1 (Forall_lookup _ _) Hd j d Ed).
  - pose proof (lookup_ge_None_1 _ _ Ed) as Hj.
    rewrite lookup_seq_ge by lia. reflexivity.
Qed.

Lemma randint_words_spec high n draws :
  1 <= high -> 0 <= n ->
  randint_spec high n ((fun j => randint_word high (nth j draws 0)) <$> seq 0 (Z.to_nat n)).
Proof.
  intros Hh Hn. split.
  - rewrite length_fmap, length_seq. lia.
  - apply Forall_fmap, Forall_forall. intros j _. cbn beta. unfold compose, randint_word.
    apply Z.mod_pos_bound. lia.
Qed.

Lemma np_random_randint_empty_range high n draws :
  high <= 0 -> 1 <= n -> np_random_randint high n draws = Raise ValueError.
Proof.
  intros Hh Hn. unfold np_random_randint.
  destruct (Z.ltb_spec n 0); [reflexivity |].
  destruct (Z.leb_spec high 0); [| lia].
  destruct (Z.eqb_spec n 0); [lia | reflexivity].
Qed.

Lemma sample_idxs_spec m draws :
  wf m -> 1 <= size m -> 1 <= batch_size m ->
  randint_spec (size m) (batch_size m) draws ->
  sample_idxs (batch_size m) draws m = (Ok (drawn_idxs m draws), m).
Proof.
  intros Hwf Hsz Hbs Hspec. pose proof (proj1 Hspec) as Hlen.
  unfold sample_idxs, drawn_idxs, bind, gets, lift, ret.
  rewrite (np_random_randint_ok _ _ _ Hsz Hspec).
  destruct (use_cer m); [| reflexivity].
  rewrite py_setitem_last by lia. reflexivity.
Qed.

Lemma drawn_idxs_in_range m draws :
  wf m -> 1 <= size m ->
  Forall (fun d => 0 <= d < size m) draws ->
  Forall (fun i => 0 <= i < size m) (drawn_idxs m draws).
Proof.
  intros Hwf Hsz Hd. unfold drawn_idxs. destruct (use_cer m); [| exact Hd].
  apply Forall_insert; [exact Hd |].
  destruct Hwf as [_ _ _ _ _ Hsh _ _]. destruct Hsh as [[? _]|(_ & ? & _)]; lia.
Qed.

Lemma sample_spec m draws :
  wf m -> 1 <= size m -> 1 <= batch_size m ->
  randint_spec (size m) (batch_size m) draws ->
  sample draws m =
  (Ok (gathered m (drawn_idxs m draws)), set_batch_idxs (Some (drawn_idxs m draws)) m).
Proof.
  intros Hwf Hsz Hbs Hspec.
  pose proof (drawn_idxs_in_range m draws Hwf Hsz (proj2 Hspec)) as Hin.
  assert (Hmax : size m <= max_size m).
  { destruct Hwf as [_ _ _ _ _ Hsh _ _]. destruct Hsh as [[? _]|(? & _ & _)]; lia. }
  assert (Hin' : Forall (fun i => 0 <= i < max_size m) (drawn_idxs m draws))
    by (eapply Forall_impl; [exact Hin | cbn; intros; lia]).
  unfold sample. unfold bind at 1. unfold gets at 1.
  erewrite bind_Ok by (apply sample_idxs_spec; assumption).
  unfold bind, gets, modify, lift, ret.
  cbn [states actions rewards dones set_batch_idxs].
  destruct Hwf as [Hs Ha Hr Hns Hd Hsh Hf Hl].
  rewrite !cond_multiget_slots by (rewrite ?Hs, ?Ha, ?Hr, ?Hd;
    eapply Forall_impl; [exact Hin' | cbn; intros; lia]).
  rewrite _sample_next_states_spec; [| constructor; assumption | exact Hin].
  cbn [dones set_batch_idxs].
  rewrite cond_multiget_slots by (rewrite Hd;
    eapply Forall_impl; [exact Hin' | cbn; intros; lia]).
  reflexivity.
Qed.

(** ** Runs of inserts *)

Lemma mod_add_neq a k n N :
  0 < N -> 0 < n - k < N -> (a + k) mod N <> (a + n) mod N.
Proof.
  intros HN Hd E.
  assert (H : (n - k) mod N = 0).
  { replace (n - k) with ((a + n) - (a + k)) by lia.
    rewrite Zminus_mod, E, Z.sub_diag. apply Z.mod_0_l. lia. }
  rewrite Z.mod_small in H by lia. lia.
Qed.

Lemma inserts_snoc ts t m :
  inserts (ts ++ [t]) m =
  (inserts ts ;;
   add_experience (t_state t) (t_action t) (t_reward t) (t_next_state t) (t_done t)) m.
Proof.
  revert m. induction ts as [|t' ts IH]; intros m; cbn [inserts app].
  - unfold bind, ret.
    destruct (add_experience _ _ _ _ _ m) as [[[]|e] m1]; reflexivity.
  - unfold bind.
    destruct (add_experience _ _ _ _ _ m) as [[[]|e] m1]; [| reflexivity].
    rewrite IH. reflexivity.
Qed.

(** The object after [inserts ts], started on a well-formed [m]: the
    [k]-th transition occupies the slot [k] places after the first one that
    was written, as long as fewer than [max_size] inserts followed it. *)
Lemma inserts_spec ts m :
  wf m -> 0 < max_size m ->
  exists m',
    inserts ts m = (Ok tt, m') /\ wf m' /\
    max_size m' = max_size m /\ cls m' = cls m /\
    size m' = Z.min (size m + Z.of_nat (length ts)) (max_size m) /\
    seen_size m' = seen_size m + Z.of_nat (length ts) /\
    head m' = match ts with
              | [] => head m
              | _ => (head m + Z.of_nat (length ts)) mod max_size m
              end /\
    latest_next_state m' = match last ts with
                           | Some t => Some (astype_float16 (t_next_state t))
                           | None => latest_next_state m
                           end /\
    forall k t, ts !! k = Some t ->
      Z.of_nat (length ts) - max_size m <= Z.of_nat k ->
      let p := (head m + 1 + Z.of_nat k) mod max_size m in
      slot (states m') p = Some (astype_float16 (t_state t)) /\
      slot (actions m') p = Some (t_action t) /\
      slot (rewards m') p = Some (stored_reward (cls m) (t_reward t)) /\
      slot (dones m') p = Some (t_done t).
Proof.
  intros Hwf HN. induction ts as [|t ts IH] using rev_ind.
  - exists m. cbn [inserts length last].
    split; [reflexivity |]. split; [exact Hwf |].
    split; [reflexivity |]. split; [reflexivity |].
    split; [destruct Hwf as [_ _ _ _ _ Hsh _ _]; lia |].
    split; [lia |]. split; [reflexivity |]. split; [reflexivity |].
    intros k t Hk. discriminate.
  - destruct IH as (m1 & Hrun & Hwf1 & Hmax & Hcls & Hsize & Hseen & Hhead & Hlat & Hslots).
    exists (inserted (t_state t) (t_action t) (stored_reward (cls m1) (t_reward t))
              (t_next_state t) (t_done t) m1).
    assert (HN1 : 0 < max_size m1) by lia.
    assert (Hnext : (head m1 + 1) mod max_size m1
                    = (head m + 1 + Z.of_nat (length ts)) mod max_size m).
    { rewrite Hmax, Hhead. destruct ts as [|t' ts'].
      - cbn [length Z.of_nat]. f_equal. lia.
      - rewrite Z.add_mod_idemp_l by lia. f_equal. lia. }
    assert (Hp : 0 <= (head m1 + 1) mod max_size m1 < max_size m1)
      by (apply Z.mod_pos_bound; exact HN1).
    rewrite inserts_snoc. rewrite (bind_Ok _ _ _ _ _ Hrun).
    rewrite add_experience_ok by assumption.
    rewrite length_app, last_snoc. cbn [length].
    split; [reflexivity |]. split; [apply wf_inserted; assumption |].
    cbn [inserted max_size cls size seen_size head latest_next_state states actions
         rewards dones].
    split; [exact Hmax |]. split; [exact Hcls |].
    split; [destruct (Z.ltb_spec (size m1) (max_size m1)); lia |].
    split; [lia |].
    split.
    { rewrite Hnext. destruct (ts ++ [t]) eqn:E.
      - destruct ts; discriminate.
      - f_equal. lia. }
    split; [reflexivity |].
    intros k t0 Hk Hrecent. cbv zeta.
    destruct Hwf1 as [Hs1 Ha1 Hr1 _ Hd1 _ _ _].
    assert (Hpk : 0 <= (head m + 1 + Z.of_nat k) mod max_size m)
      by (apply Z.mod_pos_bound; exact HN).
    rewrite !slot_insert by lia.
    destruct (decide (k = length ts)) as [->|Hne].
    + rewrite list_lookup_middle in Hk by reflexivity. injection Hk as <-.
      rewrite Hnext, Z.eqb_refl, Hcls. done.
    + assert (Hlt : (k < length ts)%nat).
      { apply lookup_lt_Some in Hk. rewrite length_app in Hk. cbn [length] in Hk. lia. }
      rewrite lookup_app_l in Hk by exact Hlt.
      rewrite Hnext.
      destruct (Z.eqb_spec ((head m + 1 + Z.of_nat k) mod max_size m)
                  ((head m + 1 + Z.of_nat (length ts)) mod max_size m)) as [E|_].
      * exfalso. revert E. apply mod_add_neq; lia.
      * apply Hslots; [exact Hk | lia].
Qed.

Lemma fresh_cleared m0 : fresh m0 -> exists m buf, m0 = set_state_buffer buf (cleared m).
Proof.
  intros [m H]. apply reset_Ok_spec in H as [-> _]. eauto.
Qed.

Lemma fresh_wf m0 : fresh m0 -> wf m0.
Proof. intros H. apply fresh_cleared in H as (m & buf & ->). apply wf_cleared. Qed.

Lemma new_fresh c bs ms cer venv dim len m :
  new c bs ms cer venv dim len = (Ok tt, m) -> fresh m.
Proof. apply new_ends_with_reset. Qed.

Lemma inserts_batch_size ts m m' :
  wf m -> inserts ts m = (Ok tt, m') -> batch_size m' = batch_size m.
Proof.
  revert m. induction ts as [|t ts IH]; intros m Hwf H; cbn [inserts] in H.
  - injection H as <-. reflexivity.
  - unfold bind in H.
    destruct (add_experience _ _ _ _ _ m) as [[[]|e] m1] eqn:E; [| discriminate].
    apply add_experience_Ok_inv in E as [HN ->]; [| exact Hwf].
    rewrite (IH _ (wf_inserted _ _ _ _ _ _ Hwf HN) H). reflexivity.
Qed.

Lemma reachable_inserts ts m m' :
  reachable m -> inserts ts m = (Ok tt, m') -> reachable m'.
Proof.
  revert m. induction ts as [|t ts IH]; intros m Hr H; cbn [inserts] in H.
  - injection H as <-. exact Hr.
  - apply bind_Ok_inv in H as ([] & m1 & H1 & H2).
    apply (IH m1); [| exact H2].
    eapply (reachable_step m (OpAddExperience _ _ _ _ _)); [exact Hr | exact H1].
Qed.

(** ** The sliding window *)

Lemma preprocess_state_false_pure s m : snd (preprocess_state s false m) = m.
Proof.
  unfold preprocess_state, SeqReplay_preprocess_state, ConcatReplay_preprocess_state,
    ImageReplay_preprocess_state, Memory_preprocess_state, preprocess_append,
    bind, gets, lift, ret.
  destruct (cls m); reflexivity.
Qed.

Lemma preprocess_state_false_Ok s m s' :
  fst (preprocess_state s false m) = Ok s' -> preprocess_state s false m = (Ok s', m).
Proof.
  intros H. rewrite <- (preprocess_state_false_pure s m) at 2. rewrite <- H.
  destruct (preprocess_state s false m); reflexivity.
Qed.

Lemma epi_reset_spec ns m s' :
  zeros_ok m ->
  fst (preprocess_state ns false m) = Ok s' ->
  epi_reset ns m = (Ok tt, set_state_buffer (zero_window m) (set_last_state (Some s') m)).
Proof.
  intros [[w Hw] [w' Hw']] Hpre. apply preprocess_state_false_Ok in Hpre.
  assert (Hbase : Replay_epi_reset ns m =
            (Ok tt, set_state_buffer w (set_last_state (Some s') m))).
  { unfold Replay_epi_reset. rewrite (bind_Ok _ _ _ _ _ Hpre).
    unfold Memory_epi_reset, state_buffer_clear. cbn [bind modify gets].
    rewrite state_buffer_fill_zeros_cleared by reflexivity.
    cbn [state_buffer_maxlen set_state_buffer set_last_state state_dim].
    rewrite Hw. reflexivity. }
  unfold epi_reset, zero_window. unfold bind at 1. unfold gets at 1.
  unfold window_dim in Hw' |- *. revert Hw'.
  destruct (cls m); intros Hw'; try (rewrite Hbase, Hw'; congruence).
  unfold ConcatReplay_epi_reset. rewrite (bind_Ok _ _ _ _ _ Hbase).
  unfold state_buffer_clear. cbn [bind modify gets].
  rewrite state_buffer_fill_zeros_cleared by reflexivity.
  cbn [state_buffer_maxlen set_state_buffer set_last_state raw_state_dim].
  rewrite Hw'. reflexivity.
Qed.

Lemma bind_gets {A B} (f : Replay -> A) (k : A -> M B) m :
  (x <- gets f ;; k x) m = k (f m) m.
Proof. reflexivity. Qed.

Lemma bind_fst_snd {A B} (c : M A) (k : A -> M B) m :
  (x <- c ;; k x) m =
  match fst (c m) with
  | Ok a => k a (snd (c m))
  | Raise e => (Raise e, snd (c m))
  end.
Proof. unfold bind. destruct (c m) as [[a|e] m1]; reflexivity. Qed.

Lemma sample_idxs_pure n draws m : snd (sample_idxs n draws m) = m.
Proof.
  unfold sample_idxs, bind, gets, lift, ret.
  destruct (np_random_randint _ _ _); [| reflexivity].
  destruct (use_cer m); reflexivity.
Qed.

Lemma sample_idxs_batch_idxs_irrelevant n draws bi m :
  fst (sample_idxs n draws (set_batch_idxs bi m)) = fst (sample_idxs n draws m).
Proof.
  unfold sample_idxs, bind, gets, lift, ret. cbn [size use_cer head set_batch_idxs].
  destruct (np_random_randint _ _ _); [| reflexivity].
  destruct (use_cer m); reflexivity.
Qed.

Lemma sample_batch_idxs_irrelevant draws bi m :
  fst (sample draws (set_batch_idxs bi m)) = fst (sample draws m).
Proof.
  unfold sample. rewrite !bind_gets. cbn [batch_size set_batch_idxs].
  rewrite (bind_fst_snd (sample_idxs (batch_size m) draws) _ (set_batch_idxs bi m)).
  rewrite (bind_fst_snd (sample_idxs (batch_size m) draws) _ m).
  rewrite !sample_idxs_pure, sample_idxs_batch_idxs_irrelevant.
  destruct (fst (sample_idxs (batch_size m) draws m)); reflexivity.
Qed.

Lemma same_but_batch_idxs_set m m' :
  same_but_batch_idxs m m' -> m' = set_batch_idxs (batch_idxs m') m.
Proof.
  unfold same_but_batch_idxs. intros H.
  change (set_batch_idxs (batch_idxs m') m)
    with (set_batch_idxs (batch_idxs m') (but_batch_idxs m)).
  rewrite <- H. destruct m'; reflexivity.
Qed.

(** [sample_idxs] and [sample] see the words of the generator through
    [np.random.randint] only. *)
Lemma sample_idxs_ext bs d1 d2 m :
  np_random_randint (size m) bs d1 = np_random_randint (size m) bs d2 ->
  sample_idxs bs d1 m = sample_idxs bs d2 m.
Proof. intros H. unfold sample_idxs, bind, gets, lift. rewrite H. reflexivity. Qed.

Lemma sample_ext d1 d2 m :
  np_random_randint (size m) (batch_size m) d1 = np_random_randint (size m) (batch_size m) d2 ->
  sample d1 m = sample d2 m.
Proof.
  intros H. unfold sample. rewrite !bind_gets.
  rewrite (bind_fst_snd (sample_idxs (batch_size m) d1) _ m).
  rewrite (bind_fst_snd (sample_idxs (batch_size m) d2) _ m).
  rewrite (sample_idxs_ext _ d1 d2 m H). reflexivity.
Qed.

(** [sample] for any words of the generator: the integers [drawn] that
    [np.random.randint] makes of them are in the range, and the call
    returns the batch gathered at them, the last one overwritten with
    [head] under [use_cer]. *)
Lemma sample_any_words m draws :
  wf m -> 1 <= size m -> 1 <= batch_size m ->
  exists drawn,
    np_random_randint (size m) (batch_size m) draws = Ok drawn /\
    randint_spec (size m) (batch_size m) drawn /\
    (forall j, (j < Z.to_nat (batch_size m))%nat ->
       drawn !! j = Some (randint_word (size m) (nth j draws 0))) /\
    sample_idxs (batch_size m) draws m = (Ok (drawn_idxs m drawn), m) /\
    sample draws m =
      (Ok (gathered m (drawn_idxs m drawn)), set_batch_idxs (Some (drawn_idxs m drawn)) m).
Proof.
  intros Hwf Hsz Hbs.
  pose proof (np_random_randint_words (size m) (batch_size m) draws Hsz ltac:(lia)) as Hw.
  pose proof (randint_words_spec (size m) (batch_size m) draws Hsz ltac:(lia)) as Hspec.
  set (drawn := (fun j => randint_word (size m) (nth j draws 0)) <$>
                seq 0 (Z.to_nat (batch_size m))) in *.
  assert (Hsame : np_random_randint (size m) (batch_size m) draws =
                  np_random_randint (size m) (batch_size m) drawn)
    by (rewrite Hw; symmetry; apply np_random_randint_ok; assumption).
  exists drawn. split; [exact Hw |]. split; [exact Hspec |]. split; [| split].
  - intros j Hj. unfold drawn. rewrite list_lookup_fmap, lookup_seq_lt by exact Hj.
    reflexivity.
  - rewrite (sample_idxs_ext _ draws drawn m Hsame). apply sample_idxs_spec; assumption.
  - rewrite (sample_ext draws drawn m Hsame). apply sample_spec; assumption.
Qed.

(** ** Next-state reconstruction *)

(** While the most recent slot is the last occupied one (the buffer has not
    wrapped, or [head] is back on the last slot), the next state returned
    for a position is the one the ring buffer defines. *)
Lemma resolved_next_state_unwrapped m i :
  wf m -> head m = size m - 1 -> 0 <= i < size m ->
  resolved_next_state m i = successor_of m i.
Proof.
  intros [_ _ _ _ _ Hsh _ _] Hhead Hi. unfold resolved_next_state, successor_of.
  destruct Hsh as [[Hsz _]|(Hsz & _ & _)]; [lia |].
  destruct (Z.eqb_spec (i + 1) (size m)), (Z.eqb_spec i (head m)); try lia; try reflexivity.
  rewrite Z.mod_small by lia. reflexivity.
Qed.

(** C2: in [sample()], a chosen index [i] with [i + 1 = size] is resolved
    to [latest_next_state]: the scratch index array holds [0] in its place
    (every scratch index is a position of an occupied slot), and the value
    gathered there is overwritten; every other chosen index is resolved by
    looking [states] up at [i + 1].  [_sample_next_states] leaves the object
    as it found it, and [sample] leaves the storage lists untouched. *)
Theorem C2_next_state_resolution m draws :
  reachable m -> 1 <= size m -> 1 <= batch_size m ->
  randint_spec (size m) (batch_size m) draws ->
  let idxs := drawn_idxs m draws in
  ns_scratch (size m) idxs = (fun i => if i + 1 =? size m then 0 else i + 1) <$> idxs /\
  Forall (fun j => 0 <= j < size m) (ns_scratch (size m) idxs) /\
  _sample_next_states idxs m =
    (Ok ((fun i => if i + 1 =? size m then latest_next_state m
                   else slot (states m) (i + 1)) <$> idxs), m) /\
  exists b m',
    sample draws m = (Ok b, m') /\
    batch_next_states b =
      (fun i => if i + 1 =? size m then latest_next_state m
                else slot (states m) (i + 1)) <$> idxs /\
    states m' = states m /\ actions m' = actions m /\
    rewards m' = rewards m /\ dones m' = dones m.
Proof.
  intros Hreach Hsz Hbs Hspec idxs.
  pose proof (reachable_wf m Hreach) as Hwf.
  pose proof (drawn_idxs_in_range m draws Hwf Hsz (proj2 Hspec)) as Hin.
  split; [apply ns_scratch_spec |].
  split.
  { rewrite ns_scratch_spec. apply Forall_fmap. eapply Forall_impl; [exact Hin |].
    intros i Hi. cbn beta in Hi |- *. unfold compose.
    destruct (Z.eqb_spec (i + 1) (size m)); lia. }
  split; [apply _sample_next_states_spec; assumption |].
  eexists _, _. split; [apply sample_spec; assumption |].
  repeat split; reflexivity.
Qed.

(** ** Index sampling *)

(** C7: [sample()] writes nothing but the record of the drawn indices,
    whether it returns or raises: [size], [head], [seen_size],
    [latest_next_state] and the storage lists are the same after one call
    and after any number of calls; on a reachable memory with [size >= 1]
    it returns, and the batch of a later call does not depend on the calls
    before it. *)
Theorem C7_sample_non_destructive :
  (forall m draws,
     let m' := snd (sample draws m) in
     but_batch_idxs m' = but_batch_idxs m /\
     size m' = size m /\ head m' = head m /\ seen_size m' = seen_size m /\
     latest_next_state m' = latest_next_state m /\
     states m' = states m /\ actions m' = actions m /\
     rewards m' = rewards m /\ dones m' = dones m) /\
  (forall m dss,
     let m' := snd (samples dss m) in
     but_batch_idxs m' = but_batch_idxs m /\
     size m' = size m /\ head m' = head m /\ seen_size m' = seen_size m /\
     latest_next_state m' = latest_next_state m /\
     states m' = states m /\ actions m' = actions m /\
     rewards m' = rewards m /\ dones m' = dones m) /\
  (forall m draws,
     reachable m -> 1 <= size m -> 1 <= batch_size m ->
     randint_spec (size m) (batch_size m) draws ->
     exists b, sample draws m = (Ok b, set_batch_idxs (Some (drawn_idxs m draws)) m)) /\
  (forall m draws1 draws2,
     fst (sample draws2 (snd (sample draws1 m))) = fst (sample draws2 m)).
Proof.
  assert (Hfields : forall m m', but_batch_idxs m' = but_batch_idxs m ->
            but_batch_idxs m' = but_batch_idxs m /\
            size m' = size m /\ head m' = head m /\ seen_size m' = seen_size m /\
            latest_next_state m' = latest_next_state m /\
            states m' = states m /\ actions m' = actions m /\
            rewards m' = rewards m /\ dones m' = dones m).
  { intros m m' H. split; [exact H |].
    pose proof (f_equal size H) as H1. pose proof (f_equal head H) as H2.
    pose proof (f_equal seen_size H) as H3.
    pose proof (f_equal latest_next_state H) as H4.
    pose proof (f_equal states H) as H5. pose proof (f_equal actions H) as H6.
    pose proof (f_equal rewards H) as H7. pose proof (f_equal dones H) as H8.
    cbn in H1, H2, H3, H4, H5, H6, H7, H8. tauto. }
  split; [| split; [| split]].
  - intros m draws. apply Hfields. apply sample_same_but_batch_idxs.
  - intros m dss. apply Hfields. apply samples_same_but_batch_idxs.
  - intros m draws Hreach Hsz Hbs Hspec. eexists.
    apply sample_spec; [apply reachable_wf | ..]; assumption.
  - intros m draws1 draws2.
    rewrite (same_but_batch_idxs_set m (snd (sample draws1 m)))
      by apply sample_same_but_batch_idxs.
    apply sample_batch_idxs_irrelevant.
Qed.

(** C8: on an empty memory [sample()] raises (the [ValueError] of
    [np.random.randint] on an empty range reaches the caller) and returns
    no batch.  On a reachable memory with [size >= 1], whatever the words
    of the generator, [sample_idxs] draws [batch_size] integers with
    [np.random.randint(size, size=batch_size)], all of [[0, size)], and
    returns them, the last one overwritten with [head] under [use_cer];
    every returned index lies in [[0, size)].  The draw is uniform with
    replacement: the [j]-th integer is decided by the [j]-th word alone,
    every run of [size] consecutive words gives every position below
    [size] exactly once, and every list of [batch_size] positions below
    [size], repetitions included, is drawn for some words. *)
Theorem C8_sample_precondition :
  (forall m draws,
     size m = 0 -> 1 <= batch_size m -> sample draws m = (Raise ValueError, m)) /\
  (forall m draws,
     reachable m -> 1 <= size m -> 1 <= batch_size m ->
     exists drawn idxs,
       np_random_randint (size m) (batch_size m) draws = Ok drawn /\
       sample_idxs (batch_size m) draws m = (Ok idxs, m) /\
       idxs = (if use_cer m then <[Z.to_nat (batch_size m - 1):=head m]> drawn else drawn) /\
       Z.of_nat (length drawn) = batch_size m /\
       Z.of_nat (length idxs) = batch_size m /\
       Forall (fun i => 0 <= i < size m) drawn /\
       Forall (fun i => 0 <= i < size m) idxs /\
       (forall j, (j < Z.to_nat (batch_size m))%nat ->
          drawn !! j = Some (randint_word (size m) (nth j draws 0)))) /\
  (forall m q r,
     1 <= size m -> 0 <= r < size m ->
     randint_word (size m) (q * size m + r) = r /\
     (forall w, q * size m <= w < (q + 1) * size m ->
        randint_word (size m) w = r -> w = q * size m + r)) /\
  (forall m t,
     1 <= size m -> randint_spec (size m) (batch_size m) t ->
     np_random_randint (size m) (batch_size m) t = Ok t).
Proof.
  split; [| split; [| split]].
  - intros m draws Hsz Hbs.
    unfold sample, sample_idxs, bind, gets, lift.
    rewrite np_random_randint_empty_range by lia. reflexivity.
  - intros m draws Hreach Hsz Hbs.
    pose proof (reachable_wf m Hreach) as Hwf.
    destruct (sample_any_words m draws Hwf Hsz Hbs)
      as (drawn & Hdrawn & Hspec & Hword & Hidxs & _).
    pose proof (proj1 Hspec) as Hlen.
    exists drawn, (drawn_idxs m drawn).
    split; [exact Hdrawn |]. split; [exact Hidxs |].
    split.
    { unfold drawn_idxs.
      replace (Z.to_nat (batch_size m - 1)) with (length drawn - 1)%nat by lia.
      reflexivity. }
    split; [exact Hlen |].
    split.
    { unfold drawn_idxs. destruct (use_cer m); rewrite ?length_insert; exact Hlen. }
    split; [exact (proj2 Hspec) |].
    split; [apply drawn_idxs_in_range; [assumption .. | exact (proj2 Hspec)] |].
    exact Hword.
  - intros m q r Hsz Hr. unfold randint_word. split.
    + rewrite Z.add_comm, Z_mod_plus_full. apply Z.mod_small. exact Hr.
    + intros w Hw Hmod.
      pose proof (Z.div_mod w (size m) ltac:(lia)) as Hdm.
      assert (Hq : w / size m = q).
      { symmetry. apply (Z.div_unique w (size m) q (w - q * size m)); lia. }
      rewrite Hq, Hmod in Hdm. lia.
  - intros m t Hsz Hspec. apply np_random_randint_ok; assumption.
Qed.

(** ** The ring buffer *)

Lemma list_of_three_slots {A} (l : list (option A)) x y z :
  length l = 3%nat -> slot l 0 = Some x -> slot l 1 = Some y -> slot l 2 = Some z ->
  l = [Some x; Some y; Some z].
Proof.
  intros Hlen H0 H1 H2.
  destruct l as [|a [|b [|c [|d l]]]]; try discriminate.
  cbv in H0, H1, H2. subst a b c. reflexivity.
Qed.

(** C3: with a positive [max_size], [0 <= size <= max_size] in every
    reachable state; an insert adds one to [size] below [max_size] and
    leaves it there, and moves [head] to [(head + 1) mod max_size]; after
    the inserts [ts] on a fresh or reset memory, [size] is
    [min (length ts) max_size], [head] is on the slot of the last insert,
    and the [k]-th transition (its state cast to half precision) sits in
    slot [k mod max_size] as long as fewer than [max_size] inserts followed
    it, so each insert past the capacity overwrites the oldest transition.
    With [max_size = 3] and four inserts: [head = 0], [size = 3], the
    states of the fourth, second and third insert in slots 0, 1, 2, and
    [latest_next_state] the next state of the fourth insert. *)
Theorem C3_capacity_and_fifo_eviction :
  (forall m, reachable m -> 0 < max_size m -> 0 <= size m <= max_size m) /\
  (forall m s a r ns d,
     reachable m -> 0 < max_size m ->
     exists m',
       add_experience s a r ns d m = (Ok tt, m') /\
       size m' = (if size m <? max_size m then size m + 1 else size m) /\
       head m' = (head m + 1) mod max_size m) /\
  (forall m0 ts,
     fresh m0 -> 0 < max_size m0 ->
     exists m',
       inserts ts m0 = (Ok tt, m') /\
       size m' = Z.min (Z.of_nat (length ts)) (max_size m0) /\
       0 <= size m' <= max_size m0 /\
       (ts <> [] -> head m' = (Z.of_nat (length ts) - 1) mod max_size m0) /\
       forall k t, ts !! k = Some t ->
         Z.of_nat (length ts) - max_size m0 <= Z.of_nat k ->
         let p := Z.of_nat k mod max_size m0 in
         slot (states m') p = Some (astype_float16 (t_state t)) /\
         slot (actions m') p = Some (t_action t) /\
         slot (rewards m') p = Some (stored_reward (cls m0) (t_reward t)) /\
         slot (dones m') p = Some (t_done t)) /\
  (forall m0 t0 t1 t2 t3,
     fresh m0 -> max_size m0 = 3 ->
     exists m',
       inserts [t0; t1; t2; t3] m0 = (Ok tt, m') /\
       head m' = 0 /\ size m' = 3 /\
       states m' = [Some (astype_float16 (t_state t3));
                    Some (astype_float16 (t_state t1));
                    Some (astype_float16 (t_state t2))] /\
       latest_next_state m' = Some (astype_float16 (t_next_state t3))).
Proof.
  assert (Hrun : forall m0 ts,
     fresh m0 -> 0 < max_size m0 ->
     exists m',
       inserts ts m0 = (Ok tt, m') /\ wf m' /\ max_size m' = max_size m0 /\
       size m' = Z.min (Z.of_nat (length ts)) (max_size m0) /\
       (ts <> [] -> head m' = (Z.of_nat (length ts) - 1) mod max_size m0) /\
       latest_next_state m' = match last ts with
                              | Some t => Some (astype_float16 (t_next_state t))
                              | None => latest_next_state m0
                              end /\
       forall k t, ts !! k = Some t ->
         Z.of_nat (length ts) - max_size m0 <= Z.of_nat k ->
         let p := Z.of_nat k mod max_size m0 in
         slot (states m') p = Some (astype_float16 (t_state t)) /\
         slot (actions m') p = Some (t_action t) /\
         slot (rewards m') p = Some (stored_reward (cls m0) (t_reward t)) /\
         slot (dones m') p = Some (t_done t)).
  { intros m0 ts Hfresh HN.
    pose proof (fresh_wf m0 Hfresh) as Hwf.
    assert (Hsz0 : size m0 = 0 /\ head m0 = -1).
    { apply fresh_cleared in Hfresh as (m & buf & ->). split; reflexivity. }
    destruct Hsz0 as [Hsz0 Hhd0].
    destruct (inserts_spec ts m0 Hwf HN)
      as (m' & Hins & Hwf' & Hmax & _ & Hsize & _ & Hhead & Hlat & Hslots).
    exists m'. split; [exact Hins |]. split; [exact Hwf' |]. split; [exact Hmax |].
    split; [rewrite Hsize, Hsz0; f_equal |].
    split.
    { intros Hne. rewrite Hhead, Hhd0. destruct ts; [done |]. f_equal; lia. }
    split; [exact Hlat |].
    intros k t Hk Hrecent. specialize (Hslots k t Hk Hrecent).
    rewrite Hhd0 in Hslots. replace (-1 + 1 + Z.of_nat k) with (Z.of_nat k) in Hslots by lia.
    exact Hslots. }
  split; [| split; [| split]].
  - intros m Hreach HN. destruct (reachable_wf m Hreach) as [_ _ _ _ _ Hsh _ _]. lia.
  - intros m s a r ns d Hreach HN. eexists.
    split; [apply add_experience_ok; [apply reachable_wf |]; assumption |].
    split; reflexivity.
  - intros m0 ts Hfresh HN.
    destruct (Hrun m0 ts Hfresh HN) as (m' & Hins & _ & _ & Hsize & Hhead & _ & Hslots).
    exists m'. repeat (split; [first [assumption | lia] |]). exact Hslots.
  - intros m0 t0 t1 t2 t3 Hfresh HN.
    destruct (Hrun m0 [t0; t1; t2; t3] Hfresh ltac:(lia))
      as (m' & Hins & Hwf' & Hmax & Hsize & Hhead & Hlat & Hslots).
    exists m'. split; [exact Hins |].
    rewrite HN in *. cbn [length last] in *.
    split; [rewrite Hhead by discriminate; reflexivity |].
    split; [rewrite Hsize; reflexivity |].
    split; [| exact Hlat].
    apply list_of_three_slots.
    + rewrite (wf_states m' Hwf'), Hmax. reflexivity.
    + apply (Hslots 3%nat t3); [reflexivity | cbn; lia].
    + apply (Hslots 1%nat t1); [reflexivity | cbn; lia].
    + apply (Hslots 2%nat t2); [reflexivity | cbn; lia].
Qed.

(** C6: [reset()] leaves every slot of the five storage lists empty,
    [latest_next_state] cleared, [size = 0], [head = -1] and [seen_size] as
    it was, and it returns on every reachable memory (on another one the
    refill of the window, which comes after these assignments, can raise
    what [np.zeros] raises; the fields are as stated then too); no call
    lowers [seen_size], whether it returns or raises; and every
    [add_experience] on a reachable memory of positive [max_size] adds
    exactly one to it, also once [size] has reached [max_size]. *)
Theorem C6_reset_and_seen_size :
  (forall m,
     let m' := snd (reset m) in
     (reachable m -> reset m = (Ok tt, m')) /\
     states m' = replicate (Z.to_nat (max_size m)) None /\
     actions m' = replicate (Z.to_nat (max_size m)) None /\
     rewards m' = replicate (Z.to_nat (max_size m)) None /\
     next_states m' = replicate (Z.to_nat (max_size m)) None /\
     dones m' = replicate (Z.to_nat (max_size m)) None /\
     latest_next_state m' = None /\
     size m' = 0 /\ head m' = -1 /\
     seen_size m' = seen_size m /\ max_size m' = max_size m) /\
  (forall o m, seen_size m <= seen_size (snd (run o m))) /\
  (forall m s a r ns d,
     reachable m -> 0 < max_size m ->
     exists m',
       add_experience s a r ns d m = (Ok tt, m') /\
       seen_size m' = seen_size m + 1 /\
       (size m = max_size m -> size m' = max_size m)).
Proof.
  split; [| split].
  - intros m. cbv zeta. split.
    + intros Hreach. rewrite (reset_window m (reachable_zeros_ok m Hreach)). reflexivity.
    + destruct (reset_spec m) as [buf ->]. repeat split; reflexivity.
  - intros o m. apply run_seen_size_le.
  - intros m s a r ns d Hreach HN. eexists.
    split; [apply add_experience_ok; [apply reachable_wf |]; assumption |].
    split; [reflexivity |].
    intros Hfull. cbn [inserted size]. rewrite Hfull, Z.ltb_irrefl. reflexivity.
Qed.

(** ** update *)

(** C5: in a non-vectorized environment a NaN reward makes [update] the
    episode reset on [next_state]: the ring buffer ([size], [head],
    [seen_size], every storage list) is as before, and when the call
    returns the preprocessed [next_state] is the first observation and the
    window holds zero states only.  In every other case, a vectorized
    environment with any reward included, [update] preprocesses [state] and
    [next_state] and hands them to [add_experience], which on a reachable
    memory of positive [max_size] inserts that one transition. *)
Theorem C5_update_dispatch m s a r ns d :
  reachable m -> 0 < max_size m ->
  (is_venv m = false -> np_isnan r = true ->
     update s a r ns d m = epi_reset ns m /\
     ring (snd (update s a r ns d m)) = ring m /\
     forall ns', fst (preprocess_state ns false m) = Ok ns' ->
       exists m',
         update s a r ns d m = (Ok tt, m') /\
         last_state m' = Some ns' /\
         state_buffer m' = zero_window m /\
         size m' = size m /\ head m' = head m /\ seen_size m' = seen_size m /\
         states m' = states m /\ actions m' = actions m /\
         rewards m' = rewards m /\ dones m' = dones m /\
         latest_next_state m' = latest_next_state m) /\
  (is_venv m = true \/ np_isnan r = false ->
     update s a r ns d m =
       (s' <- preprocess_state s false ;;
        ns' <- preprocess_state ns false ;;
        add_experience s' a r ns' d) m /\
     forall s' ns',
       fst (preprocess_state s false m) = Ok s' ->
       fst (preprocess_state ns false m) = Ok ns' ->
       update s a r ns d m = (Ok tt, inserted s' a (stored_reward (cls m) r) ns' d m) /\
       seen_size (inserted s' a (stored_reward (cls m) r) ns' d m) = seen_size m + 1).
Proof.
  intros Hreach HN. pose proof (reachable_wf m Hreach) as Hwf. split.
  - intros Hv Hr. rewrite update_episode_start by assumption.
    split; [reflexivity |]. split; [apply epi_reset_same_ring |].
    intros ns' Hpre. eexists.
    split; [apply epi_reset_spec; [apply reachable_zeros_ok; exact Hreach | exact Hpre] |].
    repeat split; reflexivity.
  - intros Hcase. rewrite update_insert by exact Hcase.
    split; [reflexivity |].
    intros s' ns' Hs Hns.
    apply preprocess_state_false_Ok in Hs, Hns.
    rewrite (bind_Ok _ _ _ _ _ Hs), (bind_Ok _ _ _ _ _ Hns).
    split; [apply add_experience_ok; assumption | reflexivity].
Qed.

(** ** Atari rewards and the half-precision cast *)

(** C9: the Atari memory stores the sign of every reward it is handed,
    [+1] for [5.0], [-1] for [-3.0] and [0] for [0.0]; the insert writes
    the slot at the new [head] and no other slot of the rewards, and
    [sample()] returns the stored rewards as they are. *)
Theorem C9_atari_reward_sign :
  (forall m s a r ns d,
     reachable m -> cls m = CAtariReplay -> 0 < max_size m ->
     exists m',
       add_experience s a r ns d m = (Ok tt, m') /\
       slot (rewards m') (head m') = Some (np_sign r) /\
       (forall k, 0 <= k -> k <> head m' -> slot (rewards m') k = slot (rewards m) k)) /\
  (forall m draws,
     reachable m -> 1 <= size m -> 1 <= batch_size m ->
     randint_spec (size m) (batch_size m) draws ->
     exists b m',
       sample draws m = (Ok b, m') /\
       batch_rewards b = slot (rewards m) <$> drawn_idxs m draws) /\
  np_sign 5%float = 1%float /\
  np_sign (-3)%float = (-1)%float /\
  np_sign 0%float = 0%float.
Proof.
  split; [| split; [| repeat split; reflexivity]].
  - intros m s a r ns d Hreach Hcls HN.
    pose proof (reachable_wf m Hreach) as Hwf.
    assert (Hh : 0 <= (head m + 1) mod max_size m < max_size m)
      by (apply Z.mod_pos_bound; exact HN).
    eexists. split; [apply add_experience_ok; assumption |].
    rewrite Hcls. cbn [stored_reward inserted rewards head].
    destruct Hwf as [_ _ Hr _ _ _ _ _].
    split.
    + rewrite slot_insert by lia. rewrite Z.eqb_refl. reflexivity.
    + intros k Hk Hne. rewrite slot_insert by lia.
      destruct (Z.eqb_spec k ((head m + 1) mod max_size m)); [done | reflexivity].
  - intros m draws Hreach Hsz Hbs Hspec. eexists _, _.
    split; [apply sample_spec; [apply reachable_wf | ..]; assumption | reflexivity].
Qed.

(** C10: [Replay.add_experience] stores the half-precision cast of [state]
    in the slot at [head] and the cast of [next_state] in
    [latest_next_state], and stores [action], [reward] and [done] as they
    are handed in.  After the inserts [ts] on a fresh or reset memory, a
    row of a sampled batch drawn at the slot of a transition that is still
    stored holds the cast of the inserted state, and the action, the reward
    handed to [Replay.add_experience] and the done flag exactly. *)
Theorem C10_half_precision_states :
  (forall m s a r ns d,
     reachable m -> 0 < max_size m ->
     exists m',
       Replay_add_experience s a r ns d m = (Ok tt, m') /\
       slot (states m') (head m') = Some (astype_float16 s) /\
       latest_next_state m' = Some (astype_float16 ns) /\
       slot (actions m') (head m') = Some a /\
       slot (rewards m') (head m') = Some r /\
       slot (dones m') (head m') = Some d) /\
  (forall m0 ts draws,
     fresh m0 -> 0 < max_size m0 -> ts <> [] -> 1 <= batch_size m0 ->
     randint_spec (Z.min (Z.of_nat (length ts)) (max_size m0)) (batch_size m0) draws ->
     exists m' b m'',
       inserts ts m0 = (Ok tt, m') /\
       sample draws m' = (Ok b, m'') /\
       forall j k t,
         ts !! k = Some t ->
         Z.of_nat (length ts) - max_size m0 <= Z.of_nat k ->
         drawn_idxs m' draws !! j = Some (Z.of_nat k mod max_size m0) ->
         batch_states b !! j = Some (Some (astype_float16 (t_state t))) /\
         batch_actions b !! j = Some (Some (t_action t)) /\
         batch_rewards b !! j = Some (Some (stored_reward (cls m0) (t_reward t))) /\
         batch_dones b !! j = Some (Some (t_done t))).
Proof.
  split.
  - intros m s a r ns d Hreach HN.
    pose proof (reachable_wf m Hreach) as Hwf.
    assert (Hh : 0 <= (head m + 1) mod max_size m < max_size m)
      by (apply Z.mod_pos_bound; exact HN).
    eexists. split; [apply Replay_add_experience_ok; assumption |].
    cbn [inserted states actions rewards dones head latest_next_state].
    destruct Hwf as [Hs Ha Hr _ Hd _ _ _].
    rewrite !slot_insert by lia. rewrite Z.eqb_refl. repeat split; reflexivity.
  - intros m0 ts draws Hfresh HN Hne Hbs Hspec.
    pose proof (fresh_wf m0 Hfresh) as Hwf.
    assert (Hsz0 : size m0 = 0 /\ head m0 = -1).
    { apply fresh_cleared in Hfresh as (m & buf & ->). split; reflexivity. }
    destruct Hsz0 as [Hsz0 Hhd0].
    destruct (inserts_spec ts m0 Hwf HN)
      as (m' & Hins & Hwf' & Hmax & _ & Hsize & _ & _ & _ & Hslots).
    assert (Hbs' : batch_size m' = batch_size m0)
      by (eapply inserts_batch_size; eassumption).
    rewrite Hsz0, Z.add_0_l in Hsize.
    assert (Hsz' : 1 <= size m').
    { rewrite Hsize. destruct ts; [done |]. cbn [length]. lia. }
    exists m'. eexists _, _. split; [exact Hins |].
    split.
    { apply sample_spec; [exact Hwf' | exact Hsz' | lia |].
      rewrite Hsize, Hbs'. exact Hspec. }
    intros j k t Hk Hrecent Hj. specialize (Hslots k t Hk Hrecent).
    rewrite Hhd0 in Hslots.
    replace (-1 + 1 + Z.of_nat k) with (Z.of_nat k) in Hslots by lia.
    cbv zeta in Hslots. destruct Hslots as (H1 & H2 & H3 & H4).
    cbn [gathered batch_states batch_actions batch_rewards batch_dones].
    rewrite !list_lookup_fmap, Hj. cbn [fmap option_fmap option_map].
    rewrite H1, H2, H3, H4. repeat split; reflexivity.
Qed.

(** * Further properties of the memory *)

(** ** reset and the constructors *)

Lemma zeros_window_empty maxlen dim : maxlen <= 0 -> zeros_window maxlen dim = Ok [].
Proof.
  intros H. unfold zeros_window. replace (Z.to_nat maxlen) with 0%nat by lia. reflexivity.
Qed.

Lemma zeros_window_pos maxlen dim :
  1 <= maxlen ->
  zeros_window maxlen dim =
  match np_zeros dim with
  | Ok z => Ok (replicate (Z.to_nat maxlen) z)
  | Raise e => Raise e
  end.
Proof.
  intros H. unfold zeros_window.
  destruct (Z.to_nat maxlen) as [|n] eqn:E; [lia | reflexivity].
Qed.

(** X1: [reset()] clears the window and refills it with
    [state_buffer.maxlen] zero states, of dimension [raw_state_dim] for
    [ConcatReplay] and [body.state_dim] for the other classes, whatever the
    window held; it keeps the class, the options and the window length.
    [np.zeros] is called in the refill loop only, so not at all for a
    window of length 0; when it raises for [body.state_dim], or for
    [raw_state_dim] in the second refill of [ConcatReplay], [reset()]
    raises the same exception; otherwise, and on every reachable memory,
    [reset()] returns. *)
Theorem X1_reset_refills_window m :
  (forall e, 1 <= state_buffer_maxlen m -> np_zeros (state_dim m) = Raise e ->
     fst (reset m) = Raise e) /\
  (forall z0 e, 1 <= state_buffer_maxlen m -> cls m = CConcatReplay ->
     np_zeros (state_dim m) = Ok z0 -> np_zeros (raw_state_dim m) = Raise e ->
     fst (reset m) = Raise e) /\
  (state_buffer_maxlen m <= 0 ->
     exists m',
       reset m = (Ok tt, m') /\ state_buffer m' = [] /\
       config m' = config m /\ last_state m' = last_state m /\
       batch_idxs m' = batch_idxs m) /\
  (forall z0 z, 1 <= state_buffer_maxlen m ->
     np_zeros (state_dim m) = Ok z0 ->
     np_zeros (match cls m with
               | CConcatReplay => raw_state_dim m
               | _ => state_dim m
               end) = Ok z ->
     exists m',
       reset m = (Ok tt, m') /\
       state_buffer m' = replicate (Z.to_nat (state_buffer_maxlen m)) z /\
       config m' = config m /\ last_state m' = last_state m /\
       batch_idxs m' = batch_idxs m) /\
  (reachable m -> fst (reset m) = Ok tt).
Proof.
  split; [| split; [| split; [| split]]].
  - intros e Hlen Hz. rewrite reset_closed, zeros_window_pos, Hz by exact Hlen. reflexivity.
  - intros z0 e Hlen Hcls Hz0 Hz.
    rewrite reset_closed, Hcls, !zeros_window_pos, Hz0, Hz by exact Hlen. reflexivity.
  - intros Hlen. eexists. split.
    + apply reset_window. unfold zeros_ok. rewrite !zeros_window_empty by exact Hlen. eauto.
    + unfold zero_window. rewrite zeros_window_empty by exact Hlen.
      repeat split; reflexivity.
  - intros z0 z Hlen Hz0 Hz. fold (window_dim m) in Hz. eexists. split.
    + apply reset_window. unfold zeros_ok. rewrite !zeros_window_pos, Hz0, Hz by exact Hlen.
      eauto.
    + unfold zero_window. rewrite zeros_window_pos, Hz by exact Hlen.
      repeat split; reflexivity.
  - intros Hreach. rewrite (reset_window m (reachable_zeros_ok m Hreach)). reflexivity.
Qed.

Lemma new_state_buffer_spec len m :
  new_state_buffer len m =
  if len <? 0 then (Raise ValueError, m)
  else (Ok tt, set_state_buffer_maxlen len (set_state_buffer [] m)).
Proof. unfold new_state_buffer. destruct (len <? 0); reflexivity. Qed.

Lemma Replay_init_spec m :
  Replay_init m =
  (Ok tt, set_state_buffer []
            (cleared (set_seen_size 0 (set_batch_idxs None
               (set_state_buffer_maxlen 0 m))))).
Proof.
  unfold Replay_init. rewrite (bind_Ok _ _ _ _ _ (new_state_buffer_spec 0 m)).
  cbn [bind modify Z.ltb Z.compare]. rewrite reset_window.
  - unfold zero_window. rewrite zeros_window_empty; [reflexivity |].
    cbn [state_buffer_maxlen set_head set_seen_size set_size set_batch_idxs
         set_state_buffer_maxlen]. lia.
  - unfold zeros_ok. rewrite !zeros_window_empty; [eauto | |];
      cbn [state_buffer_maxlen set_head set_seen_size set_size set_batch_idxs
           set_state_buffer_maxlen]; lia.
Qed.

(** The memory right before the last [reset()] of the constructor of
    [SeqReplay] and [ConcatReplay]. *)
Lemma new_window_closed c bs ms cer venv dim len :
  0 <= len -> c = CSeqReplay \/ c = CConcatReplay ->
  exists m1,
    new c bs ms cer venv dim len = reset m1 /\
    cls m1 = c /\ batch_size m1 = bs /\ max_size m1 = ms /\ use_cer m1 = cer /\
    is_venv m1 = venv /\
    state_dim m1 = match c with CConcatReplay => dim * len | _ => dim end /\
    raw_state_dim m1 = dim /\ seen_size m1 = 0 /\ batch_idxs m1 = None /\
    state_buffer_maxlen m1 = len.
Proof.
  intros Hlen Hc. unfold new.
  destruct Hc as [-> | ->].
  all: erewrite bind_Ok by apply Replay_init_spec.
  all: erewrite bind_Ok;
    [| rewrite new_state_buffer_spec; destruct (Z.ltb_spec len 0); [lia | reflexivity]].
  all: eexists; split; [reflexivity |]; repeat split; reflexivity.
Qed.

(** X2: a constructor raises [ValueError] when [SeqReplay] or
    [ConcatReplay] is given a negative window length.  With a window of
    length >= 1 the constructor calls [np.zeros] on [body.state_dim]
    (that is [state_dim * concat_len] for [ConcatReplay]), and
    [ConcatReplay] then on the raw dimension, and raises what [np.zeros]
    raises.  In every other case it returns an empty memory: [size = 0],
    [head = -1], [seen_size = 0], no recorded draw, [max_size] empty
    slots in each storage list, and a window of zero states, as long as
    [seq_len] or [concat_len] for these two classes (and of the raw
    dimension for [ConcatReplay]) and empty for the others. *)
Theorem X2_constructor c bs ms cer venv dim len :
  let dim' := match c with CConcatReplay => dim * len | _ => dim end in
  (window_len c len < 0 -> fst (new c bs ms cer venv dim len) = Raise ValueError) /\
  (forall e, 1 <= window_len c len -> np_zeros dim' = Raise e ->
     fst (new c bs ms cer venv dim len) = Raise e) /\
  (forall z0 e, 1 <= window_len c len -> np_zeros dim' = Ok z0 -> np_zeros dim = Raise e ->
     fst (new c bs ms cer venv dim len) = Raise e) /\
  (forall w,
     0 <= window_len c len ->
     (window_len c len = 0 /\ w = [] \/
      1 <= window_len c len /\
      exists z0 z, np_zeros dim' = Ok z0 /\ np_zeros dim = Ok z /\
                   w = replicate (Z.to_nat (window_len c len)) z) ->
     exists m,
       new c bs ms cer venv dim len = (Ok tt, m) /\
       cls m = c /\ batch_size m = bs /\ max_size m = ms /\ use_cer m = cer /\
       is_venv m = venv /\ state_dim m = dim' /\
       size m = 0 /\ head m = -1 /\ seen_size m = 0 /\ batch_idxs m = None /\
       latest_next_state m = None /\
       states m = replicate (Z.to_nat ms) None /\
       actions m = replicate (Z.to_nat ms) None /\
       rewards m = replicate (Z.to_nat ms) None /\
       next_states m = replicate (Z.to_nat ms) None /\
       dones m = replicate (Z.to_nat ms) None /\
       state_buffer_maxlen m = window_len c len /\
       state_buffer m = w).
Proof.
  cbv zeta. split; [| split; [| split]].
  - intros Hneg. unfold new.
    destruct c; cbn [window_len] in Hneg; try lia.
    all: erewrite bind_Ok by apply Replay_init_spec.
    all: erewrite bind_Raise; [reflexivity |].
    all: rewrite new_state_buffer_spec.
    all: destruct (Z.ltb_spec len 0); [reflexivity | lia].
  - intros e Hlen Hz.
    assert (Hc : c = CSeqReplay \/ c = CConcatReplay)
      by (destruct c; cbn [window_len] in Hlen; auto; lia).
    assert (Hlen' : window_len c len = len) by (destruct Hc as [-> | ->]; reflexivity).
    rewrite Hlen' in Hlen.
    destruct (new_window_closed c bs ms cer venv dim len ltac:(lia) Hc)
      as (m1 & -> & Hcls & _ & _ & _ & _ & Hdim & Hraw & _ & _ & Hmax).
    rewrite reset_closed, Hmax, Hdim, zeros_window_pos, Hz by exact Hlen. reflexivity.
  - intros z0 e Hlen Hz0 Hz.
    assert (Hc : c = CSeqReplay \/ c = CConcatReplay)
      by (destruct c; cbn [window_len] in Hlen; auto; lia).
    assert (Hlen' : window_len c len = len) by (destruct Hc as [-> | ->]; reflexivity).
    rewrite Hlen' in Hlen.
    destruct (new_window_closed c bs ms cer venv dim len ltac:(lia) Hc)
      as (m1 & -> & Hcls & _ & _ & _ & _ & Hdim & Hraw & _ & _ & Hmax).
    destruct Hc as [-> | ->]; [congruence |].
    rewrite reset_closed, Hmax, Hdim, Hraw, Hcls, !zeros_window_pos, Hz0, Hz by exact Hlen.
    reflexivity.
  - intros w Hlen Hw.
    assert (Hcase : (c = CReplay \/ c = CAtariReplay \/ c = CImageReplay) \/
                    (c = CSeqReplay \/ c = CConcatReplay))
      by (destruct c; auto).
    destruct Hcase as [Hc | Hc].
    + assert (Hlen0 : window_len c len = 0) by (destruct Hc as [-> | [-> | ->]]; reflexivity).
      assert (Hw0 : w = []) by (destruct Hw as [[_ ->] | [Hpos _]]; [reflexivity | lia]).
      subst w. unfold new.
      destruct Hc as [-> | [-> | ->]].
      all: eexists; split; [apply Replay_init_spec |]; repeat split; reflexivity.
    + assert (Hlen' : window_len c len = len) by (destruct Hc as [-> | ->]; reflexivity).
      rewrite Hlen' in Hlen, Hw |- *.
      destruct (new_window_closed c bs ms cer venv dim len Hlen Hc)
        as (m1 & -> & Hcls & Hbs & Hms & Hcer & Hvenv & Hdim & Hraw & Hseen & Hidx & Hmax).
      assert (Hok : zeros_ok m1 /\ zero_window m1 = w).
      { unfold zeros_ok, zero_window, window_dim. rewrite Hmax, Hdim, Hraw, Hcls.
        destruct Hw as [[Hl0 ->] | [Hpos (z0 & z & Hz0 & Hz & ->)]].
        - rewrite !zeros_window_empty by lia.
          destruct Hc as [-> | ->]; rewrite ?zeros_window_empty by lia; eauto.
        - rewrite !zeros_window_pos, Hz0 by exact Hpos.
          destruct Hc as [-> | ->]; rewrite ?zeros_window_pos by exact Hpos.
          + replace z0 with z by congruence. rewrite Hz. eauto.
          + rewrite Hz. eauto. }
      destruct Hok as [Hok Hzw]. rewrite (reset_window m1 Hok), Hzw.
      eexists. split; [reflexivity |].
      cbn [cls batch_size max_size use_cer is_venv state_dim size head seen_size batch_idxs
           latest_next_state states actions rewards next_states dones state_buffer_maxlen
           state_buffer set_state_buffer cleared].
      unfold py_list_repeat. rewrite Hcls, Hbs, Hms, Hcer, Hvenv, Hdim, Hseen, Hidx, Hmax.
      repeat split; reflexivity.
Qed.

(** ** What the operations keep *)

(** A call that returns leaves the ring buffer as it was, or cleared, or
    with one transition inserted. *)
Lemma run_cases o m m' :
  wf m -> run o m = (Ok tt, m') ->
  same_ring m m' \/
  (exists buf, m' = set_state_buffer buf (cleared m)) \/
  (exists m2 s a r ns d,
     same_ring m m2 /\ wf m2 /\ 0 < max_size m2 /\ m' = inserted s a r ns d m2).
Proof.
  intros Hwf H. destruct o as [|s|s ap|s a r ns d|s a r ns d|draws]; cbn [run] in H.
  - right. left. apply reset_Ok_spec in H as [-> _]. eauto.
  - left. eapply respects_Ok; [apply epi_reset_same_ring | exact H].
  - left. apply bind_Ok_inv in H as (x & m1 & H1 & H2). injection H2 as <-.
    eapply respects_Ok; [apply preprocess_state_same_ring | exact H1].
  - destruct (is_venv m) eqn:Hv; [| destruct (np_isnan r) eqn:Hr].
    2: { left. rewrite update_episode_start in H by assumption.
         eapply respects_Ok; [apply epi_reset_same_ring | exact H]. }
    all: right; right.
    all: rewrite update_insert in H by auto.
    all: apply bind_Ok_inv in H as (s' & m1 & H1 & H).
    all: apply bind_Ok_inv in H as (ns' & m2 & H2 & H).
    all: assert (Hring : same_ring m m2)
      by (eapply same_ring_trans;
          [eapply respects_Ok; [apply preprocess_state_same_ring | exact H1] |
           eapply respects_Ok; [apply preprocess_state_same_ring | exact H2]]).
    all: pose proof (wf_same_ring _ _ Hring Hwf) as Hwf2.
    all: apply add_experience_Ok_inv in H as [Hn ->]; [| exact Hwf2].
    all: eexists m2, _, _, _, _, _.
    all: split; [exact Hring | split; [exact Hwf2 | split; [exact Hn | reflexivity]]].
  - right. right. apply add_experience_Ok_inv in H as [Hn ->]; [| exact Hwf].
    eexists m, _, _, _, _, _.
    split; [apply same_ring_refl | split; [exact Hwf | split; [exact Hn | reflexivity]]].
  - left. apply bind_Ok_inv in H as (x & m1 & H1 & H2). injection H2 as <-.
    apply same_but_batch_idxs_ring.
    eapply respects_Ok; [apply sample_same_but_batch_idxs | exact H1].
Qed.

Lemma slot_replicate_None {A} n k : slot (replicate n (@None A)) k = None.
Proof.
  unfold slot. destruct (replicate n None !! Z.to_nat k) as [x|] eqn:E; [| reflexivity].
  apply lookup_replicate in E as [-> _]. reflexivity.
Qed.

Lemma vacant_same_ring m m' : same_ring m m' -> vacant m -> vacant m'.
Proof.
  unfold same_ring, ring. intros H [Hv Hns].
  injection H as Hmax Hsize _ _ Hst Hac Hre Hnst Hdo _.
  constructor; rewrite ?Hmax, ?Hsize, ?Hst, ?Hac, ?Hre, ?Hnst, ?Hdo; assumption.
Qed.

Lemma vacant_cleared m buf : vacant (set_state_buffer buf (cleared m)).
Proof.
  constructor;
    cbn [set_state_buffer cleared states actions rewards next_states dones size max_size].
  - intros k _. unfold py_list_repeat. rewrite !slot_replicate_None. done.
  - reflexivity.
Qed.

Lemma vacant_inserted s a r ns d m :
  wf m -> vacant m -> 0 < max_size m -> vacant (inserted s a r ns d m).
Proof.
  intros Hwf [Hv Hns] HN.
  pose proof (wf_inserted s a r ns d m Hwf HN) as Hwf'.
  destruct Hwf' as [_ _ _ _ _ Hsh' _ _].
  destruct Hwf as [Hs Ha Hr _ Hd Hsh _ _].
  assert (Hh : 0 <= (head m + 1) mod max_size m < max_size m)
    by (apply Z.mod_pos_bound; exact HN).
  cbn [inserted size head max_size] in Hsh'.
  constructor; cbn [inserted states actions rewards dones next_states size max_size];
    [| exact Hns].
  intros k Hk.
  assert (Hne : k <> (head m + 1) mod max_size m) by lia.
  assert (Hk0 : size m <= k) by (destruct (Z.ltb_spec (size m) (max_size m)); lia).
  rewrite !slot_insert by lia.
  destruct (Z.eqb_spec k ((head m + 1) mod max_size m)); [done |].
  apply Hv. exact Hk0.
Qed.

Lemma reachable_vacant m : reachable m -> vacant m.
Proof.
  induction 1 as [c bs ms cer venv dim len m H | m o m' Hreach IH H].
  - apply new_ends_with_reset in H as [m1 H1]. apply reset_Ok_spec in H1 as [-> _].
    apply vacant_cleared.
  - pose proof (reachable_wf m Hreach) as Hwf.
    destruct (run_cases o m m' Hwf H)
      as [Hring | [[buf ->] | (m2 & s & a & r & ns & d & Hring & Hwf2 & HN & ->)]].
    + eapply vacant_same_ring; eassumption.
    + apply vacant_cleared.
    + apply vacant_inserted; [exact Hwf2 | | exact HN].
      eapply vacant_same_ring; eassumption.
Qed.

(** X3: in every reachable state the occupied slots of [states],
    [actions], [rewards] and [dones] are exactly the positions below
    [size], and the [next_states] list, which [reset] allocates, is never
    written: all of its slots are empty. *)
Theorem X3_occupied_slots m k :
  reachable m -> 0 <= k ->
  (is_Some (slot (states m) k) <-> k < size m) /\
  (is_Some (slot (actions m) k) <-> k < size m) /\
  (is_Some (slot (rewards m) k) <-> k < size m) /\
  (is_Some (slot (dones m) k) <-> k < size m) /\
  next_states m = replicate (Z.to_nat (max_size m)) None.
Proof.
  intros Hreach Hk.
  pose proof (reachable_wf m Hreach) as Hwf.
  destruct (reachable_vacant m Hreach) as [Hv Hns].
  assert (Hiff : forall A (l : list (option A)),
            (size m <= k -> slot l k = None) ->
            (0 <= k < size m -> is_Some (slot l k)) ->
            is_Some (slot l k) <-> k < size m).
  { intros A l Hnone Hsome. split.
    - intros [x Hx]. destruct (Z.ltb_spec k (size m)) as [Hlt|Hge]; [exact Hlt |].
      rewrite (Hnone Hge) in Hx. discriminate.
    - intros Hlt. apply Hsome. lia. }
  repeat split; try exact Hns; try apply Hiff;
    try (intros Hge; apply (Hv k Hge));
    try (intros Hlt; apply (wf_filled m Hwf k Hlt)).
Qed.

(** X4: no operation changes what the constructor fixed, whether it
    returns or raises: the class, [batch_size], [max_size], [use_cer], the
    attributes of [body] and the length of the window are the same after
    [reset], [epi_reset], [preprocess_state], [update], [add_experience]
    and [sample]. *)
Theorem X4_configuration_is_fixed o m :
  let m' := snd (run o m) in
  cls m' = cls m /\ batch_size m' = batch_size m /\ max_size m' = max_size m /\
  use_cer m' = use_cer m /\ is_venv m' = is_venv m /\ state_dim m' = state_dim m /\
  raw_state_dim m' = raw_state_dim m /\ state_buffer_maxlen m' = state_buffer_maxlen m.
Proof.
  pose proof (run_same_config o m) as H. unfold same_config, config in H.
  cbv zeta. injection H as H1 H2 H3 H4 H5 H6 H7 H8. tauto.
Qed.

(** ** Batches *)

Lemma resolved_next_state_is_Some m i :
  wf m -> 0 <= i < size m -> is_Some (resolved_next_state m i).
Proof.
  intros Hwf Hi. unfold resolved_next_state.
  destruct (Z.eqb_spec (i + 1) (size m)) as [E|E].
  - apply (wf_latest m Hwf). lia.
  - apply (wf_filled m Hwf). lia.
Qed.

(** X5: on a reachable memory with [size >= 1], [sample()] returns a batch
    whose five fields have [batch_size] rows each, and no row holds [None]:
    every sampled state, action, reward, next state and done flag was
    stored by an insert. *)
Theorem X5_sample_rows_complete m draws :
  reachable m -> 1 <= size m -> 1 <= batch_size m ->
  randint_spec (size m) (batch_size m) draws ->
  exists b m',
    sample draws m = (Ok b, m') /\
    Z.of_nat (length (batch_states b)) = batch_size m /\
    Z.of_nat (length (batch_actions b)) = batch_size m /\
    Z.of_nat (length (batch_rewards b)) = batch_size m /\
    Z.of_nat (length (batch_next_states b)) = batch_size m /\
    Z.of_nat (length (batch_dones b)) = batch_size m /\
    Forall is_Some (batch_states b) /\ Forall is_Some (batch_actions b) /\
    Forall is_Some (batch_rewards b) /\ Forall is_Some (batch_next_states b) /\
    Forall is_Some (batch_dones b).
Proof.
  intros Hreach Hsz Hbs Hspec.
  pose proof (reachable_wf m Hreach) as Hwf.
  pose proof (drawn_idxs_in_range m draws Hwf Hsz (proj2 Hspec)) as Hin.
  assert (Hlen : Z.of_nat (length (drawn_idxs m draws)) = batch_size m).
  { unfold drawn_idxs. destruct (use_cer m); rewrite ?length_insert; apply Hspec. }
  eexists _, _. split; [apply sample_spec; assumption |].
  cbn [gathered batch_states batch_actions batch_rewards batch_next_states batch_dones].
  rewrite !length_fmap.
  repeat (split; [exact Hlen |]).
  repeat split; apply Forall_fmap; (eapply Forall_impl; [exact Hin |]);
    intros i Hi; cbn beta in Hi |- *; unfold compose;
    first [apply resolved_next_state_is_Some; assumption | apply (wf_filled m Hwf i Hi)].
Qed.

(** X11: with [use_cer], whatever the words of the generator, [sample()]
    on a reachable memory with [size >= 1] overwrites the last of the
    [batch_size] drawn indices with [head]: the last row of the batch
    holds the state, action, reward and done flag stored at [head], an
    occupied slot.  The next state of that row is the one that
    [_sample_next_states] resolves for [head]: [latest_next_state] while
    [head] is the last occupied slot ([head = size - 1], the buffer has
    not wrapped), and the state stored at [head + 1] otherwise. *)
Theorem X11_cer_last_row m draws :
  reachable m -> use_cer m = true -> 1 <= size m -> 1 <= batch_size m ->
  exists b m' idxs,
    sample draws m = (Ok b, m') /\
    batch_idxs m' = Some idxs /\
    Z.of_nat (length idxs) = batch_size m /\
    let j := Z.to_nat (batch_size m - 1) in
    idxs !! j = Some (head m) /\
    batch_states b !! j = Some (slot (states m) (head m)) /\
    batch_actions b !! j = Some (slot (actions m) (head m)) /\
    batch_rewards b !! j = Some (slot (rewards m) (head m)) /\
    batch_dones b !! j = Some (slot (dones m) (head m)) /\
    is_Some (slot (states m) (head m)) /\ is_Some (slot (actions m) (head m)) /\
    is_Some (slot (rewards m) (head m)) /\ is_Some (slot (dones m) (head m)) /\
    (head m = size m - 1 -> batch_next_states b !! j = Some (latest_next_state m)) /\
    (head m <> size m - 1 ->
       batch_next_states b !! j = Some (slot (states m) (head m + 1))).
Proof.
  intros Hreach Hcer Hsz Hbs.
  pose proof (reachable_wf m Hreach) as Hwf.
  destruct (sample_any_words m draws Hwf Hsz Hbs) as (drawn & _ & Hspec & _ & _ & Hsample).
  pose proof (proj1 Hspec) as Hlen.
  assert (Hidx : drawn_idxs m drawn !! Z.to_nat (batch_size m - 1) = Some (head m)).
  { unfold drawn_idxs. rewrite Hcer.
    replace (Z.to_nat (batch_size m - 1)) with (length drawn - 1)%nat by lia.
    apply list_lookup_insert_eq. lia. }
  assert (Hhead : 0 <= head m < size m).
  { destruct Hwf as [_ _ _ _ _ Hsh _ _]. destruct Hsh as [[? _]|(_ & ? & _)]; lia. }
  eexists _, _, (drawn_idxs m drawn).
  split; [exact Hsample |].
  split; [reflexivity |].
  split; [unfold drawn_idxs; rewrite Hcer, length_insert; exact Hlen |].
  cbv zeta.
  cbn [gathered batch_states batch_actions batch_rewards batch_next_states batch_dones].
  rewrite !list_lookup_fmap, Hidx. cbn [fmap option_fmap option_map].
  repeat (split; [reflexivity |]).
  destruct (wf_filled m Hwf (head m) Hhead) as (H1 & H2 & H3 & H4).
  repeat (split; [assumption |]).
  unfold resolved_next_state. split.
  - intros E. destruct (Z.eqb_spec (head m + 1) (size m)); [reflexivity | lia].
  - intros E. destruct (Z.eqb_spec (head m + 1) (size m)); [lia | reflexivity].
Qed.

(** X6: as long as the buffer has not wrapped (at most [max_size] inserts on
    a fresh or reset memory), a sampled row drawn at the position of the
    [k]-th insert gives back that transition: its state cast to half
    precision, its action, reward and done flag, and as next state the cast
    of the state of the insert that followed, or of its own [next_state]
    for the most recent one. *)
Theorem X6_round_trip_before_wrap m0 ts draws :
  fresh m0 -> ts <> [] -> Z.of_nat (length ts) <= max_size m0 -> 1 <= batch_size m0 ->
  randint_spec (Z.of_nat (length ts)) (batch_size m0) draws ->
  exists m' b m'',
    inserts ts m0 = (Ok tt, m') /\
    sample draws m' = (Ok b, m'') /\
    forall j k t,
      drawn_idxs m' draws !! j = Some (Z.of_nat k) -> ts !! k = Some t ->
      batch_states b !! j = Some (Some (astype_float16 (t_state t))) /\
      batch_actions b !! j = Some (Some (t_action t)) /\
      batch_rewards b !! j = Some (Some (stored_reward (cls m0) (t_reward t))) /\
      batch_dones b !! j = Some (Some (t_done t)) /\
      batch_next_states b !! j = Some (Some (astype_float16 (following_state ts k t))).
Proof.
  intros Hfresh Hne Hcap Hbs Hspec.
  pose proof (fresh_wf m0 Hfresh) as Hwf.
  assert (Hsz0 : size m0 = 0 /\ head m0 = -1).
  { apply fresh_cleared in Hfresh as (m & buf & ->). split; reflexivity. }
  destruct Hsz0 as [Hsz0 Hhd0].
  assert (Hn : 1 <= Z.of_nat (length ts)) by (destruct ts; [done | cbn [length]; lia]).
  assert (HN : 0 < max_size m0) by lia.
  destruct (inserts_spec ts m0 Hwf HN)
    as (m' & Hins & Hwf' & Hmax & _ & Hsize & _ & _ & Hlat & Hslots).
  pose proof (inserts_batch_size ts m0 m' Hwf Hins) as Hbs'.
  rewrite Hsz0, Z.add_0_l, Z.min_l in Hsize by lia.
  exists m'. eexists _, _. split; [exact Hins |].
  split; [apply sample_spec; [exact Hwf' | lia | lia | rewrite Hsize, Hbs'; exact Hspec] |].
  intros j k t Hj Hk.
  assert (Hkn : (k < length ts)%nat) by (eapply lookup_lt_Some; exact Hk).
  assert (Hat : forall k' t', ts !! k' = Some t' ->
            slot (states m') (Z.of_nat k') = Some (astype_float16 (t_state t')) /\
            slot (actions m') (Z.of_nat k') = Some (t_action t') /\
            slot (rewards m') (Z.of_nat k') = Some (stored_reward (cls m0) (t_reward t')) /\
            slot (dones m') (Z.of_nat k') = Some (t_done t')).
  { intros k' t' Hk'.
    assert (Hk'n : (k' < length ts)%nat) by (eapply lookup_lt_Some; exact Hk').
    specialize (Hslots k' t' Hk' ltac:(lia)). cbv zeta in Hslots.
    rewrite Hhd0 in Hslots.
    replace (-1 + 1 + Z.of_nat k') with (Z.of_nat k') in Hslots by lia.
    rewrite Z.mod_small in Hslots by lia. exact Hslots. }
  destruct (Hat k t Hk) as (H1 & H2 & H3 & H4).
  cbn [gathered batch_states batch_actions batch_rewards batch_next_states batch_dones].
  rewrite !list_lookup_fmap, Hj. cbn [fmap option_fmap option_map].
  rewrite H1, H2, H3, H4. repeat (split; [reflexivity |]).
  f_equal. unfold resolved_next_state, following_state. rewrite Hsize.
  destruct (Z.eqb_spec (Z.of_nat k + 1) (Z.of_nat (length ts))) as [E|E].
  - rewrite Hlat, last_lookup.
    replace (pred (length ts)) with k by lia. rewrite Hk.
    rewrite (proj2 (lookup_ge_None ts (S k))) by lia. reflexivity.
  - destruct (lookup_lt_is_Some_2 ts (S k) ltac:(lia)) as [t' Ht'].
    rewrite Ht'. destruct (Hat (S k) t' Ht') as (H1' & _).
    replace (Z.of_nat k + 1) with (Z.of_nat (S k)) by lia. exact H1'.
Qed.

(** ** Inserts without capacity *)

(** X7: on a reachable memory [add_experience] returns exactly when
    [max_size] is positive.  With [max_size = 0] it raises
    [ZeroDivisionError] and writes nothing; with a negative [max_size] it
    raises [IndexError] on the empty [states] list after [head] was moved,
    with [size] and [seen_size] as before. *)
Theorem X7_add_experience_needs_capacity m s a r ns d :
  reachable m ->
  (0 < max_size m <-> exists m', add_experience s a r ns d m = (Ok tt, m')) /\
  (max_size m = 0 -> add_experience s a r ns d m = (Raise ZeroDivisionError, m)) /\
  (max_size m < 0 ->
   add_experience s a r ns d m
   = (Raise IndexError, set_head ((head m + 1) mod max_size m) m)).
Proof.
  intros Hreach. pose proof (reachable_wf m Hreach) as Hwf.
  split; [| split].
  - split.
    + intros HN. eexists. apply add_experience_ok; assumption.
    + intros [m' H]. apply (add_experience_Ok_inv _ _ _ _ _ _ _ Hwf H).
  - intros H0. rewrite add_experience_unfold.
    unfold Replay_add_experience, bind, gets, lift, py_mod. rewrite H0. reflexivity.
  - intros Hneg. rewrite add_experience_unfold.
    unfold Replay_add_experience, bind, gets, modify, lift, py_mod.
    destruct (Z.eqb_spec (max_size m) 0); [lia |].
    cbn [states set_head head].
    destruct Hwf as [Hs _ _ _ _ _ _ _].
    destruct (states m) as [|x l]; [| cbn [length] in Hs; lia].
    rewrite py_setitem_empty. reflexivity.
Qed.

(** ** The sliding window *)

Lemma deque_append_length {A} maxlen (buf : list A) x :
  length buf = Z.to_nat maxlen -> length (deque_append maxlen buf x) = Z.to_nat maxlen.
Proof.
  intros H. unfold deque_append. rewrite length_drop, length_app. cbn [length]. lia.
Qed.

Lemma deque_append_full {A} maxlen (buf : list A) x :
  length buf = Z.to_nat maxlen -> 1 <= maxlen ->
  deque_append maxlen buf x = drop 1 buf ++ [x].
Proof.
  intros H Hpos. unfold deque_append. rewrite length_app. cbn [length].
  replace (length buf + 1 - Z.to_nat maxlen)%nat with 1%nat by lia.
  apply drop_app_le. lia.
Qed.

Lemma epi_reset_Ok_inv ns m m' :
  epi_reset ns m = (Ok tt, m') ->
  exists s', fst (preprocess_state ns false m) = Ok s'.
Proof.
  intros H. destruct (fst (preprocess_state ns false m)) as [s'|e] eqn:E; [eauto |].
  exfalso.
  assert (Hraise : Replay_epi_reset ns m = (Raise e, snd (preprocess_state ns false m))).
  { unfold Replay_epi_reset. rewrite bind_fst_snd, E. reflexivity. }
  unfold epi_reset in H. rewrite bind_gets in H.
  destruct (cls m); unfold ConcatReplay_epi_reset in H;
    try rewrite (bind_Raise _ _ _ _ _ Hraise) in H; try rewrite Hraise in H;
    discriminate.
Qed.

Lemma preprocess_state_window s ap m :
  length (state_buffer m) = Z.to_nat (state_buffer_maxlen m) ->
  length (state_buffer (snd (preprocess_state s ap m)))
  = Z.to_nat (state_buffer_maxlen (snd (preprocess_state s ap m))).
Proof.
  intros H.
  unfold preprocess_state, SeqReplay_preprocess_state, ConcatReplay_preprocess_state,
    ImageReplay_preprocess_state, Memory_preprocess_state, preprocess_append,
    state_buffer_append, bind, gets, modify, lift, ret.
  destruct (cls m), ap; cbn [snd state_buffer state_buffer_maxlen set_state_buffer];
    first [exact H | apply deque_append_length; exact H].
Qed.

Lemma zero_window_length m :
  zeros_ok m -> length (zero_window m) = Z.to_nat (state_buffer_maxlen m).
Proof.
  unfold zeros_ok, zero_window, zeros_window. intros [_ [w Hw]]. revert Hw.
  destruct (Z.to_nat (state_buffer_maxlen m)); [reflexivity |].
  destruct (np_zeros (window_dim m)); [| discriminate].
  intros _. apply length_replicate.
Qed.

Lemma run_window o m m' :
  wf m -> zeros_ok m -> length (state_buffer m) = Z.to_nat (state_buffer_maxlen m) ->
  run o m = (Ok tt, m') ->
  length (state_buffer m') = Z.to_nat (state_buffer_maxlen m').
Proof.
  intros Hwf Hok Hwin H.
  assert (Hepi : forall ns, epi_reset ns m = (Ok tt, m') ->
            length (state_buffer m') = Z.to_nat (state_buffer_maxlen m')).
  { intros ns He. destruct (epi_reset_Ok_inv ns m m' He) as [s' Hs'].
    rewrite (epi_reset_spec ns m s' Hok Hs') in He. injection He as <-.
    cbn [state_buffer state_buffer_maxlen set_state_buffer set_last_state].
    apply zero_window_length. exact Hok. }
  assert (Hadd : forall s a r ns d, add_experience s a r ns d m = (Ok tt, m') ->
            length (state_buffer m') = Z.to_nat (state_buffer_maxlen m')).
  { intros s a r ns d Ha. apply add_experience_Ok_inv in Ha as [_ ->]; [| exact Hwf].
    exact Hwin. }
  destruct o as [|s|s ap|s a r ns d|s a r ns d|draws]; cbn [run] in H.
  - apply reset_Ok_spec in H as [-> _].
    cbn [state_buffer state_buffer_maxlen set_state_buffer cleared].
    apply zero_window_length. exact Hok.
  - eapply Hepi; exact H.
  - apply bind_Ok_inv in H as (x & m1 & H1 & H2). injection H2 as <-.
    pose proof (preprocess_state_window s ap m Hwin) as Hw. rewrite H1 in Hw. exact Hw.
  - destruct (is_venv m) eqn:Hv; [| destruct (np_isnan r) eqn:Hr].
    2: { rewrite update_episode_start in H by assumption. eapply Hepi; exact H. }
    all: rewrite update_insert in H by auto.
    all: apply bind_Ok_inv in H as (s' & m1 & H1 & H).
    all: pose proof (preprocess_state_false_pure s m) as E1; rewrite H1 in E1;
      cbn [snd] in E1; subst m1.
    all: apply bind_Ok_inv in H as (ns' & m2 & H2 & H).
    all: pose proof (preprocess_state_false_pure ns m) as E2; rewrite H2 in E2;
      cbn [snd] in E2; subst m2.
    all: eapply Hadd; exact H.
  - eapply Hadd; exact H.
  - apply bind_Ok_inv in H as (x & m1 & H1 & H2). injection H2 as <-.
    pose proof (sample_same_but_batch_idxs draws m) as Hs. rewrite H1 in Hs.
    unfold same_but_batch_idxs in Hs. cbn [snd] in Hs.
    pose proof (f_equal state_buffer Hs) as Hb.
    pose proof (f_equal state_buffer_maxlen Hs) as Hl.
    cbn in Hb, Hl. rewrite Hb, Hl. exact Hwin.
Qed.

Lemma reachable_window m :
  reachable m -> length (state_buffer m) = Z.to_nat (state_buffer_maxlen m).
Proof.
  induction 1 as [c bs ms cer venv dim len m H | m o m' Hreach IH H].
  - apply new_ends_with_reset in H as [m1 H1]. apply reset_Ok_spec in H1 as [-> Hok].
    cbn [state_buffer state_buffer_maxlen set_state_buffer cleared].
    apply zero_window_length. exact Hok.
  - eapply run_window; [apply reachable_wf | apply reachable_zeros_ok | |]; eassumption.
Qed.

(** X8: the window of a reachable memory always holds exactly
    [state_buffer.maxlen] states; on a [SeqReplay] or [ConcatReplay] with a
    window of length at least 1, [preprocess_state(state, append=True)]
    drops the oldest state, puts [state] last, and returns the stack
    (the concatenation) of the new window. *)
Theorem X8_window_slides m s :
  reachable m ->
  length (state_buffer m) = Z.to_nat (state_buffer_maxlen m) /\
  (1 <= state_buffer_maxlen m ->
   (cls m = CSeqReplay ->
    preprocess_state s true m =
    (np_stack (drop 1 (state_buffer m) ++ [s]),
     set_state_buffer (drop 1 (state_buffer m) ++ [s]) m)) /\
   (cls m = CConcatReplay ->
    preprocess_state s true m =
    (np_concatenate (drop 1 (state_buffer m) ++ [s]),
     set_state_buffer (drop 1 (state_buffer m) ++ [s]) m))).
Proof.
  intros Hreach. pose proof (reachable_window m Hreach) as Hwin.
  split; [exact Hwin |].
  intros Hlen.
  unfold preprocess_state, SeqReplay_preprocess_state, ConcatReplay_preprocess_state,
    preprocess_append, state_buffer_append, bind, gets, modify, lift.
  split; intros ->; cbn [state_buffer set_state_buffer];
    rewrite deque_append_full by assumption; reflexivity.
Qed.

(** X9: on a [SeqReplay] or [ConcatReplay], an [update] that inserts stores
    the stack (the concatenation) of the current window both as the state
    and as the next state of the transition, whatever [state] and
    [next_state] it is given: the window is not advanced by [update]. *)
Theorem X9_window_memories_store_the_window m s a r ns d w :
  reachable m -> 0 < max_size m ->
  is_venv m = true \/ np_isnan r = false ->
  (cls m = CSeqReplay /\ np_stack (state_buffer m) = Ok w) \/
  (cls m = CConcatReplay /\ np_concatenate (state_buffer m) = Ok w) ->
  exists m',
    update s a r ns d m = (Ok tt, m') /\
    slot (states m') (head m') = Some (astype_float16 w) /\
    latest_next_state m' = Some (astype_float16 w) /\
    slot (actions m') (head m') = Some a /\
    slot (rewards m') (head m') = Some r /\
    state_buffer m' = state_buffer m.
Proof.
  intros Hreach HN Hcase Hcls. pose proof (reachable_wf m Hreach) as Hwf.
  assert (Hpre : forall x, preprocess_state x false m = (Ok w, m)).
  { intros x.
    unfold preprocess_state, SeqReplay_preprocess_state, ConcatReplay_preprocess_state,
      preprocess_append, bind, gets, lift, ret.
    destruct Hcls as [[-> ->] | [-> ->]]; reflexivity. }
  assert (Hr : stored_reward (cls m) r = r)
    by (destruct Hcls as [[-> _] | [-> _]]; reflexivity).
  assert (Hh : 0 <= (head m + 1) mod max_size m < max_size m)
    by (apply Z.mod_pos_bound; exact HN).
  exists (inserted w a r w d m). split.
  - rewrite update_insert by exact Hcase.
    rewrite (bind_Ok _ _ _ _ _ (Hpre s)), (bind_Ok _ _ _ _ _ (Hpre ns)).
    rewrite add_experience_ok by assumption. rewrite Hr. reflexivity.
  - cbn [inserted states actions rewards head latest_next_state state_buffer].
    destruct Hwf as [Hs Ha Hrw _ _ _ _ _].
    rewrite !slot_insert by lia. rewrite Z.eqb_refl. repeat split; reflexivity.
Qed.

(** ** The row at [head] once the buffer has wrapped *)

Lemma mod_pred n N :
  0 < N -> n mod N <> 0 -> (n - 1) mod N = n mod N - 1.
Proof.
  intros HN Hr. pose proof (Z.mod_pos_bound n N HN) as Hb.
  symmetry. apply (Z.mod_unique_pos _ _ (n / N)); [lia |].
  pose proof (Z.div_mod n N ltac:(lia)) as E. lia.
Qed.

Lemma mod_sub_self n N : 0 < N -> (n - N) mod N = n mod N.
Proof.
  intros HN. replace (n - N) with (n + (-1) * N) by lia. apply Z_mod_plus_full.
Qed.

(** X10: after more than [max_size] inserts on a fresh or reset memory, a
    number that is no multiple of [max_size], the row that [sample()] draws
    at [head] gets as next state the state of the oldest transition still
    stored (the one inserted [max_size] inserts ago, one slot after [head]),
    not [latest_next_state]. *)
Theorem X10_wrapped_head_row m0 ts draws :
  fresh m0 -> 0 < max_size m0 -> max_size m0 < Z.of_nat (length ts) ->
  Z.of_nat (length ts) mod max_size m0 <> 0 -> 1 <= batch_size m0 ->
  randint_spec (max_size m0) (batch_size m0) draws ->
  exists m' b m'',
    inserts ts m0 = (Ok tt, m') /\
    sample draws m' = (Ok b, m'') /\
    forall j t_old,
      drawn_idxs m' draws !! j = Some (head m') ->
      ts !! (length ts - Z.to_nat (max_size m0))%nat = Some t_old ->
      batch_next_states b !! j = Some (Some (astype_float16 (t_state t_old))).
Proof.
  intros Hfresh HN Hwrap Hrem Hbs Hspec.
  pose proof (fresh_wf m0 Hfresh) as Hwf.
  assert (Hsz0 : size m0 = 0 /\ head m0 = -1).
  { apply fresh_cleared in Hfresh as (m & buf & ->). split; reflexivity. }
  destruct Hsz0 as [Hsz0 Hhd0].
  destruct (inserts_spec ts m0 Hwf HN)
    as (m' & Hins & Hwf' & Hmax & _ & Hsize & _ & Hhead & _ & Hslots).
  pose proof (inserts_batch_size ts m0 m' Hwf Hins) as Hbs'.
  rewrite Hsz0, Z.add_0_l, Z.min_r in Hsize by lia.
  assert (Hhead' : head m' = Z.of_nat (length ts) mod max_size m0 - 1).
  { rewrite Hhead, Hhd0. destruct ts as [|t0 ts0]; [cbn [length] in Hwrap; lia |].
    replace (-1 + Z.of_nat (length (t0 :: ts0))) with (Z.of_nat (length (t0 :: ts0)) - 1)
      by lia.
    apply mod_pred; assumption. }
  pose proof (Z.mod_pos_bound (Z.of_nat (length ts)) (max_size m0) HN) as Hb.
  exists m'. eexists _, _. split; [exact Hins |].
  split; [apply sample_spec; [exact Hwf' | lia | lia | rewrite Hsize, Hbs'; exact Hspec] |].
  intros j t_old Hj Hold.
  specialize (Hslots _ t_old Hold ltac:(lia)). cbv zeta in Hslots.
  destruct Hslots as (H1 & _).
  rewrite Hhd0 in H1.
  replace (-1 + 1 + Z.of_nat (length ts - Z.to_nat (max_size m0)))
    with (Z.of_nat (length ts) - max_size m0) in H1 by lia.
  rewrite mod_sub_self in H1 by exact HN.
  cbn [gathered batch_next_states].
  rewrite list_lookup_fmap, Hj. cbn [fmap option_fmap option_map]. f_equal.
  unfold resolved_next_state. rewrite Hsize, Hhead'.
  destruct (Z.eqb_spec (Z.of_nat (length ts) mod max_size m0 - 1 + 1) (max_size m0));
    [lia |].
  replace (Z.of_nat (length ts) mod max_size m0 - 1 + 1)
    with (Z.of_nat (length ts) mod max_size m0) by lia.
  exact H1.
Qed.

End Memory.

(** * Runs on the array model

    The memory over [ndarray] states and integer actions: the runs below
    evaluate the methods on concrete transitions whose states are
    one-element arrays. *)

Abbreviation obs x := (array [scalar x]).

Abbreviation nd_reachable :=
  (reachable nd_astype_float16 nd_zeros nd_stack nd_concatenate nd_normalize_image
     nd_sub_scalar).
Abbreviation nd_new := (@new ndarray Z nd_zeros).
Abbreviation nd_inserts := (@inserts ndarray Z nd_astype_float16).
Abbreviation nd_add_experience := (@add_experience ndarray Z nd_astype_float16).
Abbreviation nd_sample := (@sample ndarray Z).
Abbreviation nd_reset := (@reset ndarray Z nd_zeros).
Abbreviation nd_update :=
  (@update ndarray Z nd_astype_float16 nd_zeros nd_stack nd_concatenate
     nd_normalize_image nd_sub_scalar).

(** Four transitions of one episode: states 1, 2, 3, 4, each followed by
    the next number. *)
Abbreviation four_transitions :=
  [mkTransition (obs 1) 0 1%float (obs 2) false;
   mkTransition (obs 2) 1 1%float (obs 3) false;
   mkTransition (obs 3) 0 1%float (obs 4) false;
   mkTransition (obs 4) 1 1%float (obs 5) true].

(** [Replay] with [batch_size = 2] and [max_size = 3], new and after the
    four inserts, when the buffer has wrapped: [head = 0], [size = 3]. *)
Abbreviation empty3 := (snd (nd_new CReplay 2 3 false false 1 0)).
Abbreviation wrapped := (snd (nd_inserts four_transitions empty3)).

(** The same with [use_cer]. *)
Abbreviation cer_empty3 := (snd (nd_new CReplay 2 3 true false 1 0)).
Abbreviation cer_wrapped := (snd (nd_inserts four_transitions cer_empty3)).

(** [AtariReplay] and [ConcatReplay] (with [concat_len = 2]) memories. *)
Abbreviation atari_empty3 := (snd (nd_new CAtariReplay 2 3 false false 1 0)).
Abbreviation concat_empty3 := (snd (nd_new CConcatReplay 2 3 false false 1 2)).

Lemma empty3_reachable : nd_reachable empty3.
Proof.
  apply (reachable_new _ _ _ _ _ _ CReplay 2 3 false false 1 0).
  vm_compute. reflexivity.
Qed.

Lemma wrapped_reachable : nd_reachable wrapped.
Proof.
  apply (reachable_inserts _ _ _ _ _ _ four_transitions empty3).
  - exact empty3_reachable.
  - vm_compute. reflexivity.
Qed.

Lemma cer_wrapped_reachable : nd_reachable cer_wrapped.
Proof.
  apply (reachable_inserts _ _ _ _ _ _ four_transitions cer_empty3).
  - apply (reachable_new _ _ _ _ _ _ CReplay 2 3 true false 1 0).
    vm_compute. reflexivity.
  - vm_compute. reflexivity.
Qed.

Lemma atari_empty3_reachable : nd_reachable atari_empty3.
Proof.
  apply (reachable_new _ _ _ _ _ _ CAtariReplay 2 3 false false 1 0).
  vm_compute. reflexivity.
Qed.

Lemma concat_empty3_reachable : nd_reachable concat_empty3.
Proof.
  apply (reachable_new _ _ _ _ _ _ CConcatReplay 2 3 false false 1 2).
  vm_compute. reflexivity.
Qed.

Lemma empty3_fresh : fresh nd_zeros empty3.
Proof.
  apply (new_fresh nd_zeros CReplay 2 3 false false 1 0). vm_compute. reflexivity.
Qed.

(** C1: on the wrapped memory ([max_size = 3], four inserts, [head = 0],
    [size = 3]) a batch drawn at positions 0 and 2 pairs the most recent
    transition (state 4, at [head]) with state 2, the state of the oldest
    stored transition, and pairs the transition of slot 2 (state 3) with
    [latest_next_state], state 5; the ring buffer defines their next states
    as state 5 and state 4. *)
Theorem C1_wrapped_buffer_next_states :
  nd_reachable wrapped /\ size wrapped = 3 /\ head wrapped = 0 /\
  max_size wrapped = 3 /\ latest_next_state wrapped = Some (obs 5) /\
  randint_spec (size wrapped) (batch_size wrapped) [0; 2] /\
  (exists b m',
     nd_sample [0; 2] wrapped = (Ok b, m') /\
     batch_states b = [Some (obs 4); Some (obs 3)] /\
     batch_next_states b = [Some (obs 2); Some (obs 5)]) /\
  successor_of wrapped <$> [0; 2] = [Some (obs 5); Some (obs 4)].
Proof.
  split; [exact wrapped_reachable |].
  split. { vm_compute. reflexivity. }
  split. { vm_compute. reflexivity. }
  split. { vm_compute. reflexivity. }
  split. { vm_compute. reflexivity. }
  split. { split; [vm_compute; reflexivity | repeat constructor; lia]. }
  split; [| vm_compute; reflexivity].
  eexists _, _. split; [vm_compute; reflexivity |]. split; vm_compute; reflexivity.
Qed.

Lemma C2_next_state_resolution_witness :
  nd_reachable wrapped /\ 1 <= size wrapped /\ 1 <= batch_size wrapped /\
  randint_spec (size wrapped) (batch_size wrapped) [0; 2] /\
  ns_scratch (size wrapped) [0; 2] = [1; 0] /\
  exists b m',
    nd_sample [0; 2] wrapped = (Ok b, m') /\
    batch_next_states b = [Some (obs 2); Some (obs 5)] /\
    states m' = states wrapped.
Proof.
  assert (H1 : 1 <= size wrapped) by (vm_compute; discriminate).
  assert (H2 : 1 <= batch_size wrapped) by (vm_compute; discriminate).
  assert (H3 : randint_spec (size wrapped) (batch_size wrapped) [0; 2])
    by (split; [vm_compute; reflexivity | repeat constructor; lia]).
  destruct (C2_next_state_resolution nd_astype_float16 nd_zeros nd_stack nd_concatenate
              nd_normalize_image nd_sub_scalar wrapped [0; 2] wrapped_reachable H1 H2 H3)
    as (Hsc & _ & _ & b & m' & Hs & Hns & Hst & _).
  split; [exact wrapped_reachable |]. split; [exact H1 |]. split; [exact H2 |].
  split; [exact H3 |].
  split; [vm_compute in Hsc; exact Hsc |].
  exists b, m'. split; [exact Hs |]. split; [| exact Hst].
  rewrite Hns. vm_compute. reflexivity.
Defined.

Lemma C3_capacity_and_fifo_eviction_witness :
  fresh nd_zeros empty3 /\ max_size empty3 = 3 /\
  exists m',
    nd_inserts four_transitions empty3 = (Ok tt, m') /\
    head m' = 0 /\ size m' = 3 /\
    states m' = [Some (obs 4); Some (obs 2); Some (obs 3)] /\
    latest_next_state m' = Some (obs 5).
Proof.
  assert (Hmax : max_size empty3 = 3) by (vm_compute; reflexivity).
  destruct (proj2 (proj2 (proj2
              (C3_capacity_and_fifo_eviction nd_astype_float16 nd_zeros nd_stack nd_concatenate
              nd_normalize_image nd_sub_scalar)))
              empty3
              (mkTransition (obs 1) 0 1%float (obs 2) false)
              (mkTransition (obs 2) 1 1%float (obs 3) false)
              (mkTransition (obs 3) 0 1%float (obs 4) false)
              (mkTransition (obs 4) 1 1%float (obs 5) true)
              empty3_fresh Hmax)
    as (m' & Hins & Hhead & Hsize & Hstates & Hlat).
  split; [exact empty3_fresh |]. split; [exact Hmax |].
  exists m'. split; [exact Hins |]. split; [exact Hhead |]. split; [exact Hsize |].
  split; [rewrite Hstates | rewrite Hlat]; vm_compute; reflexivity.
Defined.

(** C4: on the wrapped memory with [use_cer] ([max_size = 3], four
    inserts, [head = 0], [size = 3]) the most recent transition is state 4
    with next state 5.  Whatever the generator draws, the last index is
    [head], and the row gathered there pairs state 4 with state 2, the
    state of the oldest stored transition: no row of the batch is the most
    recent transition. *)
Theorem C4_cer_wrapped_head_row :
  nd_reachable cer_wrapped /\ use_cer cer_wrapped = true /\
  size cer_wrapped = 3 /\ head cer_wrapped = 0 /\
  slot (states cer_wrapped) (head cer_wrapped) = Some (obs 4) /\
  latest_next_state cer_wrapped = Some (obs 5) /\
  successor_of cer_wrapped (head cer_wrapped) = Some (obs 5) /\
  (exists b m',
     nd_sample [1; 1] cer_wrapped = (Ok b, m') /\
     batch_idxs m' = Some [1; 0] /\
     batch_states b = [Some (obs 2); Some (obs 4)] /\
     batch_next_states b = [Some (obs 3); Some (obs 2)]) /\
  (forall draws, exists b m',
     nd_sample draws cer_wrapped = (Ok b, m') /\
     (batch_idxs m' = Some [0; 0] /\
      batch_states b = [Some (obs 4); Some (obs 4)] /\
      batch_next_states b = [Some (obs 2); Some (obs 2)] \/
      batch_idxs m' = Some [1; 0] /\
      batch_states b = [Some (obs 2); Some (obs 4)] /\
      batch_next_states b = [Some (obs 3); Some (obs 2)] \/
      batch_idxs m' = Some [2; 0] /\
      batch_states b = [Some (obs 3); Some (obs 4)] /\
      batch_next_states b = [Some (obs 5); Some (obs 2)])).
Proof.
  split; [exact cer_wrapped_reachable |].
  split. { vm_compute. reflexivity. }
  split. { vm_compute. reflexivity. }
  split. { vm_compute. reflexivity. }
  split. { vm_compute. reflexivity. }
  split. { vm_compute. reflexivity. }
  split. { vm_compute. reflexivity. }
  split.
  { eexists _, _. split; [vm_compute; reflexivity |].
    split; [| split]; vm_compute; reflexivity. }
  intros draws.
  pose proof (reachable_wf _ _ _ _ _ _ cer_wrapped cer_wrapped_reachable) as Hwf.
  assert (Hsz : size cer_wrapped = 3) by (vm_compute; reflexivity).
  assert (Hbs : batch_size cer_wrapped = 2) by (vm_compute; reflexivity).
  destruct (sample_any_words cer_wrapped draws Hwf
              ltac:(rewrite Hsz; lia) ltac:(rewrite Hbs; lia))
    as (drawn & _ & [Hlen Hd] & _ & _ & Hsample).
  rewrite Hbs in Hlen. rewrite Hsz in Hd.
  destruct drawn as [|i1 [|i2 [|i3 drawn]]]; cbn [length] in Hlen; try lia.
  apply Forall_cons in Hd as [H1 Hd]. apply Forall_cons in Hd as [H2 _].
  assert (E1 : i1 = 0 \/ i1 = 1 \/ i1 = 2) by lia.
  assert (E2 : i2 = 0 \/ i2 = 1 \/ i2 = 2) by lia.
  clear H1 H2 Hlen.
  eexists _, _. split; [exact Hsample |]. clear Hsample.
  destruct E1 as [-> | [-> | ->]]; destruct E2 as [-> | [-> | ->]]; vm_compute;
    first [left; repeat split; reflexivity
          | right; left; repeat split; reflexivity
          | right; right; repeat split; reflexivity].
Qed.

Lemma C5_update_dispatch_witness :
  nd_reachable concat_empty3 /\ 0 < max_size concat_empty3 /\
  is_venv concat_empty3 = false /\ np_isnan nan = true /\ np_isnan 1%float = false /\
  (exists m',
     nd_update (obs 7) 0 nan (obs 1) false concat_empty3 = (Ok tt, m') /\
     last_state m' = Some (array [scalar 0; scalar 0]) /\
     state_buffer m' = [obs 0; obs 0] /\
     size m' = 0 /\ seen_size m' = 0) /\
  (exists m',
     nd_update (obs 1) 0 1%float (obs 2) false concat_empty3 = (Ok tt, m') /\
     size m' = 1 /\ head m' = 0 /\ seen_size m' = 1 /\
     slot (rewards m') 0 = Some 1%float).
Proof.
  assert (H0 : 0 < max_size concat_empty3) by (vm_compute; reflexivity).
  assert (Hv : is_venv concat_empty3 = false) by (vm_compute; reflexivity).
  assert (Hnan : np_isnan nan = true) by (vm_compute; reflexivity).
  assert (Hone : np_isnan 1%float = false) by (vm_compute; reflexivity).
  split; [exact concat_empty3_reachable |]. split; [exact H0 |]. split; [exact Hv |].
  split; [exact Hnan |]. split; [exact Hone |].
  split.
  - destruct (proj1 (C5_update_dispatch nd_astype_float16 nd_zeros nd_stack nd_concatenate
              nd_normalize_image nd_sub_scalar concat_empty3 (obs 7) 0 nan (obs 1) false
                       concat_empty3_reachable H0) Hv Hnan) as (_ & _ & Hreset).
    destruct (Hreset (array [scalar 0; scalar 0]) ltac:(vm_compute; reflexivity))
      as (m' & Hu & Hlast & Hbuf & Hsize & _ & Hseen & _).
    exists m'. split; [exact Hu |]. split; [exact Hlast |].
    split; [rewrite Hbuf; vm_compute; reflexivity |].
    split; [rewrite Hsize | rewrite Hseen]; vm_compute; reflexivity.
  - destruct (proj2 (C5_update_dispatch nd_astype_float16 nd_zeros nd_stack nd_concatenate
              nd_normalize_image nd_sub_scalar concat_empty3 (obs 1) 0 1%float (obs 2) false
                       concat_empty3_reachable H0) (or_intror Hone)) as (_ & Hins).
    destruct (Hins (array [scalar 0; scalar 0]) (array [scalar 0; scalar 0])
                ltac:(vm_compute; reflexivity) ltac:(vm_compute; reflexivity))
      as (Hu & _).
    eexists. split; [exact Hu |]. repeat split; vm_compute; reflexivity.
Defined.

Lemma C6_reset_and_seen_size_witness :
  nd_reachable wrapped /\ 0 < max_size wrapped /\ size wrapped = max_size wrapped /\
  seen_size wrapped = 4 /\
  (exists m',
     nd_reset wrapped = (Ok tt, m') /\
     states m' = [None; None; None] /\ size m' = 0 /\ head m' = -1 /\ seen_size m' = 4) /\
  exists m',
    nd_add_experience (obs 5) 0 1%float (obs 6) false wrapped = (Ok tt, m') /\
    seen_size m' = 5 /\ size m' = 3.
Proof.
  assert (H0 : 0 < max_size wrapped) by (vm_compute; reflexivity).
  assert (Hfull : size wrapped = max_size wrapped) by (vm_compute; reflexivity).
  destruct (proj1 (C6_reset_and_seen_size nd_astype_float16 nd_zeros nd_stack nd_concatenate
              nd_normalize_image nd_sub_scalar) wrapped)
    as (Hret & Hst & _ & _ & _ & _ & _ & Hsz0 & Hhd0 & Hseen0 & _).
  destruct (proj2 (proj2 (C6_reset_and_seen_size nd_astype_float16 nd_zeros nd_stack nd_concatenate
              nd_normalize_image nd_sub_scalar))
              wrapped (obs 5) 0 1%float (obs 6) false wrapped_reachable H0)
    as (m' & Hadd & Hseen & Hsize).
  split; [exact wrapped_reachable |]. split; [exact H0 |]. split; [exact Hfull |].
  split; [vm_compute; reflexivity |].
  split.
  { eexists. split; [exact (Hret wrapped_reachable) |].
    split; [rewrite Hst; vm_compute; reflexivity |].
    split; [exact Hsz0 |]. split; [exact Hhd0 |].
    rewrite Hseen0. vm_compute. reflexivity. }
  exists m'. split; [exact Hadd |].
  split; [rewrite Hseen | rewrite (Hsize Hfull)]; vm_compute; reflexivity.
Defined.

Lemma C7_sample_non_destructive_witness :
  nd_reachable wrapped /\ 1 <= size wrapped /\ 1 <= batch_size wrapped /\
  randint_spec (size wrapped) (batch_size wrapped) [2; 2] /\
  exists b, nd_sample [2; 2] wrapped = (Ok b, set_batch_idxs (Some [2; 2]) wrapped).
Proof.
  assert (H1 : 1 <= size wrapped) by (vm_compute; discriminate).
  assert (H2 : 1 <= batch_size wrapped) by (vm_compute; discriminate).
  assert (H3 : randint_spec (size wrapped) (batch_size wrapped) [2; 2])
    by (split; [vm_compute; reflexivity | repeat constructor; lia]).
  destruct (proj1 (proj2 (proj2 (C7_sample_non_destructive nd_astype_float16 nd_zeros nd_stack nd_concatenate
              nd_normalize_image nd_sub_scalar)))
              wrapped [2; 2] wrapped_reachable H1 H2 H3) as (b & Hs).
  split; [exact wrapped_reachable |]. split; [exact H1 |]. split; [exact H2 |].
  split; [exact H3 |].
  vm_compute in Hs. vm_compute. exists b. exact Hs.
Defined.

Lemma C8_sample_precondition_witness :
  (size empty3 = 0 /\ 1 <= batch_size empty3 /\
   nd_sample [0; 0] empty3 = (Raise ValueError, empty3)) /\
  (nd_reachable cer_wrapped /\ 1 <= size cer_wrapped /\ 1 <= batch_size cer_wrapped /\
   exists drawn idxs,
     np_random_randint 3 2 [5; 7] = Ok drawn /\
     sample_idxs (batch_size cer_wrapped) [5; 7] cer_wrapped = (Ok idxs, cer_wrapped) /\
     idxs = <[1%nat:=0]> drawn /\
     drawn !! 0%nat = Some 2 /\ drawn !! 1%nat = Some 1) /\
  (1 <= size wrapped /\ 0 <= 2 < size wrapped /\ randint_word 3 5 = 2).
Proof.
  assert (H0 : size empty3 = 0) by (vm_compute; reflexivity).
  assert (Hb : 1 <= batch_size empty3) by (vm_compute; discriminate).
  assert (H1 : 1 <= size cer_wrapped) by (vm_compute; discriminate).
  assert (H2 : 1 <= batch_size cer_wrapped) by (vm_compute; discriminate).
  assert (H3 : 1 <= size wrapped) by (vm_compute; discriminate).
  assert (H4 : 0 <= 2 < size wrapped) by (vm_compute; split; [discriminate | reflexivity]).
  split; [| split].
  - split; [exact H0 |]. split; [exact Hb |].
    exact (proj1 (C8_sample_precondition nd_astype_float16 nd_zeros nd_stack nd_concatenate
              nd_normalize_image nd_sub_scalar) empty3 [0; 0] H0 Hb).
  - destruct (proj1 (proj2 (C8_sample_precondition nd_astype_float16 nd_zeros nd_stack
                nd_concatenate nd_normalize_image nd_sub_scalar))
                cer_wrapped [5; 7] cer_wrapped_reachable H1 H2)
      as (drawn & idxs & Hdrawn & Hs & Hidxs & _ & _ & _ & _ & Hword).
    pose proof (Hword 0%nat ltac:(vm_compute; lia)) as Hw0.
    pose proof (Hword 1%nat ltac:(vm_compute; lia)) as Hw1.
    split; [exact cer_wrapped_reachable |]. split; [exact H1 |]. split; [exact H2 |].
    exists drawn, idxs.
    split; [vm_compute in Hdrawn; vm_compute; exact Hdrawn |].
    split; [exact Hs |].
    split; [vm_compute in Hidxs; exact Hidxs |].
    split; [vm_compute in Hw0; exact Hw0 | vm_compute in Hw1; exact Hw1].
  - split; [exact H3 |]. split; [exact H4 |].
    pose proof (proj1 (proj1 (proj2 (proj2 (C8_sample_precondition nd_astype_float16 nd_zeros
                  nd_stack nd_concatenate nd_normalize_image nd_sub_scalar)))
                  wrapped 1 2 H3 H4)) as Hr.
    vm_compute in Hr. vm_compute. exact Hr.
Defined.

Lemma C9_atari_reward_sign_witness :
  nd_reachable atari_empty3 /\ cls atari_empty3 = CAtariReplay /\
  0 < max_size atari_empty3 /\
  exists m',
    nd_add_experience (obs 1) 0 5%float (obs 2) false atari_empty3 = (Ok tt, m') /\
    slot (rewards m') (head m') = Some 1%float.
Proof.
  assert (H0 : cls atari_empty3 = CAtariReplay) by (vm_compute; reflexivity).
  assert (H1 : 0 < max_size atari_empty3) by (vm_compute; reflexivity).
  destruct (proj1 (C9_atari_reward_sign nd_astype_float16 nd_zeros nd_stack nd_concatenate
              nd_normalize_image nd_sub_scalar)
              atari_empty3 (obs 1) 0 5%float (obs 2) false atari_empty3_reachable H0 H1)
    as (m' & Hadd & Hr & _).
  split; [exact atari_empty3_reachable |]. split; [exact H0 |]. split; [exact H1 |].
  exists m'. split; [exact Hadd |]. rewrite Hr. vm_compute. reflexivity.
Defined.

Lemma C10_half_precision_states_witness :
  fresh nd_zeros empty3 /\ 0 < max_size empty3 /\ 1 <= batch_size empty3 /\
  randint_spec 1 (batch_size empty3) [0; 0] /\
  exists m' b m'',
    nd_inserts [mkTransition (obs 2049) 7 0.5%float (obs 2051) true] empty3 = (Ok tt, m') /\
    nd_sample [0; 0] m' = (Ok b, m'') /\
    batch_states b !! 0%nat = Some (Some (obs 2048)) /\
    batch_actions b !! 0%nat = Some (Some 7) /\
    batch_rewards b !! 0%nat = Some (Some 0.5%float) /\
    batch_dones b !! 0%nat = Some (Some true) /\
    latest_next_state m' = Some (obs 2052).
Proof.
  assert (H0 : 0 < max_size empty3) by (vm_compute; reflexivity).
  assert (H1 : 1 <= batch_size empty3) by (vm_compute; discriminate).
  assert (H3 : randint_spec 1 (batch_size empty3) [0; 0])
    by (split; [vm_compute; reflexivity | repeat constructor; lia]).
  destruct (proj2 (C10_half_precision_states nd_astype_float16 nd_zeros nd_stack nd_concatenate
              nd_normalize_image nd_sub_scalar)
              empty3 [mkTransition (obs 2049) 7 0.5%float (obs 2051) true] [0; 0]
              empty3_fresh H0 ltac:(discriminate) H1 H3)
    as (m' & b & m'' & Hins & Hs & Hrows).
  assert (Em : m' = snd (nd_inserts [mkTransition (obs 2049) 7 0.5%float (obs 2051) true]
                           empty3)) by (rewrite Hins; reflexivity).
  destruct (Hrows 0%nat 0%nat (mkTransition (obs 2049) 7 0.5%float (obs 2051) true)
              eq_refl ltac:(vm_compute; discriminate)
              ltac:(rewrite Em; vm_compute; reflexivity))
    as (Hst & Hac & Hre & Hdo).
  split; [exact empty3_fresh |]. split; [exact H0 |]. split; [exact H1 |].
  split; [exact H3 |].
  exists m', b, m''. split; [exact Hins |]. split; [exact Hs |].
  split; [rewrite Hst; vm_compute; reflexivity |].
  split; [exact Hac |]. split; [rewrite Hre; vm_compute; reflexivity |].
  split; [exact Hdo |].
  rewrite Em. vm_compute. reflexivity.
Defined.

(** * Runs for the further properties *)

Abbreviation nd_params_preprocess_state :=
  (@preprocess_state ndarray Z nd_stack nd_concatenate nd_normalize_image nd_sub_scalar).

(** The first two of the four transitions, in a memory of three slots. *)
Abbreviation two_transitions :=
  [mkTransition (obs 1) 0 1%float (obs 2) false;
   mkTransition (obs 2) 1 1%float (obs 3) false].
Abbreviation half_full := (snd (nd_inserts two_transitions empty3)).

(** A memory without capacity, and a [SeqReplay] with [seq_len = 2]. *)
Abbreviation no_capacity := (snd (nd_new CReplay 2 0 false false 1 0)).
Abbreviation seq_empty3 := (snd (nd_new CSeqReplay 2 3 false false 1 2)).

Lemma half_full_reachable : nd_reachable half_full.
Proof.
  apply (reachable_inserts _ _ _ _ _ _ two_transitions empty3).
  - exact empty3_reachable.
  - vm_compute. reflexivity.
Qed.

Lemma no_capacity_reachable : nd_reachable no_capacity.
Proof.
  apply (reachable_new _ _ _ _ _ _ CReplay 2 0 false false 1 0).
  vm_compute. reflexivity.
Qed.

Lemma seq_empty3_reachable : nd_reachable seq_empty3.
Proof.
  apply (reachable_new _ _ _ _ _ _ CSeqReplay 2 3 false false 1 2).
  vm_compute. reflexivity.
Qed.

(** A [SeqReplay] whose constructor was handed a negative state dimension:
    the object as the raising constructor leaves it. *)
Abbreviation seq_negative_dim := (snd (nd_new CSeqReplay 2 3 false false (-1) 2)).

Lemma X1_reset_refills_window_witness :
  (1 <= state_buffer_maxlen seq_negative_dim /\
   nd_zeros (state_dim seq_negative_dim) = Raise ValueError /\
   fst (nd_reset seq_negative_dim) = Raise ValueError) /\
  (1 <= state_buffer_maxlen seq_empty3 /\
   nd_zeros (state_dim seq_empty3) = Ok (obs 0) /\
   exists m',
     nd_reset seq_empty3 = (Ok tt, m') /\ state_buffer m' = [obs 0; obs 0]) /\
  (nd_reachable seq_empty3 /\ fst (nd_reset seq_empty3) = Ok tt).
Proof.
  assert (Hlen : 1 <= state_buffer_maxlen seq_negative_dim) by (vm_compute; discriminate).
  assert (Hz : nd_zeros (state_dim seq_negative_dim) = Raise ValueError)
    by (vm_compute; reflexivity).
  assert (Hlen' : 1 <= state_buffer_maxlen seq_empty3) by (vm_compute; discriminate).
  assert (Hz' : nd_zeros (state_dim seq_empty3) = Ok (obs 0)) by (vm_compute; reflexivity).
  split; [| split].
  - split; [exact Hlen |]. split; [exact Hz |].
    exact (proj1 (X1_reset_refills_window nd_astype_float16 nd_zeros nd_stack nd_concatenate
                    nd_normalize_image nd_sub_scalar seq_negative_dim)
             ValueError Hlen Hz).
  - split; [exact Hlen' |]. split; [exact Hz' |].
    destruct (proj1 (proj2 (proj2 (proj2
                (X1_reset_refills_window nd_astype_float16 nd_zeros nd_stack nd_concatenate
                   nd_normalize_image nd_sub_scalar seq_empty3))))
                (obs 0) (obs 0) Hlen' Hz' ltac:(vm_compute; reflexivity))
      as (m' & Hreset & Hbuf & _).
    exists m'. split; [exact Hreset |]. rewrite Hbuf. vm_compute. reflexivity.
  - split; [exact seq_empty3_reachable |].
    exact (proj2 (proj2 (proj2 (proj2
             (X1_reset_refills_window nd_astype_float16 nd_zeros nd_stack nd_concatenate
                nd_normalize_image nd_sub_scalar seq_empty3))))
             seq_empty3_reachable).
Defined.

Lemma X2_constructor_witness :
  (window_len CSeqReplay (-1) < 0 /\
   fst (nd_new CSeqReplay 2 3 false false 1 (-1)) = Raise ValueError) /\
  (1 <= window_len CSeqReplay 2 /\ nd_zeros (-1) = Raise ValueError /\
   fst (nd_new CSeqReplay 2 3 false false (-1) 2) = Raise ValueError) /\
  (0 <= window_len CConcatReplay 2 /\
   nd_zeros (1 * 2) = Ok (array [scalar 0; scalar 0]) /\ nd_zeros 1 = Ok (obs 0) /\
   exists m,
     nd_new CConcatReplay 2 3 false false 1 2 = (Ok tt, m) /\
     state_dim m = 2 /\ size m = 0 /\ head m = -1 /\
     states m = [None; None; None] /\
     state_buffer m = [obs 0; obs 0]).
Proof.
  assert (Hneg : window_len CSeqReplay (-1) < 0) by (vm_compute; reflexivity).
  assert (Hone : 1 <= window_len CSeqReplay 2) by (vm_compute; discriminate).
  assert (Hraise : nd_zeros (-1) = Raise ValueError) by (vm_compute; reflexivity).
  assert (Hpos : 0 <= window_len CConcatReplay 2) by (vm_compute; discriminate).
  assert (Hone' : 1 <= window_len CConcatReplay 2) by (vm_compute; discriminate).
  assert (Hz0 : nd_zeros (1 * 2) = Ok (array [scalar 0; scalar 0]))
    by (vm_compute; reflexivity).
  assert (Hz : nd_zeros 1 = Ok (obs 0)) by (vm_compute; reflexivity).
  split; [| split].
  - split; [exact Hneg |].
    exact (proj1 (@X2_constructor ndarray Z nd_zeros CSeqReplay 2 3 false false 1 (-1)) Hneg).
  - split; [exact Hone |]. split; [exact Hraise |].
    exact (proj1 (proj2 (@X2_constructor ndarray Z nd_zeros CSeqReplay 2 3 false false (-1) 2))
             ValueError Hone Hraise).
  - split; [exact Hpos |]. split; [exact Hz0 |]. split; [exact Hz |].
    destruct (proj2 (proj2 (proj2
                (@X2_constructor ndarray Z nd_zeros CConcatReplay 2 3 false false 1 2)))
                [obs 0; obs 0] Hpos
                (or_intror (conj Hone'
                   (ex_intro _ _ (ex_intro _ _ (conj Hz0 (conj Hz eq_refl)))))))
      as (m & Hnew & _ & _ & _ & _ & _ & Hdim & Hsize & Hhead & _ & _ & _ & Hst & _ & _ & _
          & _ & _ & Hbuf).
    exists m. split; [exact Hnew |].
    split; [rewrite Hdim; vm_compute; reflexivity |].
    split; [exact Hsize |]. split; [exact Hhead |].
    split; [rewrite Hst; vm_compute; reflexivity | exact Hbuf].
Defined.

Lemma X3_occupied_slots_witness :
  nd_reachable half_full /\ 0 <= 2 /\ size half_full = 2 /\
  slot (states half_full) 2 = None /\ next_states half_full = [None; None; None].
Proof.
  assert (H0 : 0 <= 2) by lia.
  destruct (X3_occupied_slots nd_astype_float16 nd_zeros nd_stack nd_concatenate
              nd_normalize_image nd_sub_scalar half_full 2 half_full_reachable H0)
    as (Hst & _ & _ & _ & Hns).
  split; [exact half_full_reachable |]. split; [exact H0 |].
  split; [vm_compute; reflexivity |].
  split; [| rewrite Hns; vm_compute; reflexivity].
  destruct (slot (states half_full) 2) as [x|] eqn:E; [| reflexivity].
  exfalso. assert (Hlt : 2 < size half_full) by (apply Hst; eexists; reflexivity).
  vm_compute in Hlt. discriminate.
Defined.

Lemma X5_sample_rows_complete_witness :
  nd_reachable wrapped /\ 1 <= size wrapped /\ 1 <= batch_size wrapped /\
  randint_spec (size wrapped) (batch_size wrapped) [0; 2] /\
  exists b m',
    nd_sample [0; 2] wrapped = (Ok b, m') /\
    length (batch_states b) = 2%nat /\ Forall is_Some (batch_next_states b).
Proof.
  assert (H1 : 1 <= size wrapped) by (vm_compute; discriminate).
  assert (H2 : 1 <= batch_size wrapped) by (vm_compute; discriminate).
  assert (H3 : randint_spec (size wrapped) (batch_size wrapped) [0; 2])
    by (split; [vm_compute; reflexivity | repeat constructor; lia]).
  destruct (X5_sample_rows_complete nd_astype_float16 nd_zeros nd_stack nd_concatenate
              nd_normalize_image nd_sub_scalar wrapped [0; 2] wrapped_reachable H1 H2 H3)
    as (b & m' & Hs & Hlen & _ & _ & _ & _ & _ & _ & _ & Hns & _).
  split; [exact wrapped_reachable |]. split; [exact H1 |]. split; [exact H2 |].
  split; [exact H3 |].
  exists b, m'. split; [exact Hs |]. split; [| exact Hns].
  vm_compute in Hlen. apply Nat2Z.inj. exact Hlen.
Defined.

Lemma X6_round_trip_before_wrap_witness :
  fresh nd_zeros empty3 /\ two_transitions <> [] /\
  Z.of_nat (length two_transitions) <= max_size empty3 /\ 1 <= batch_size empty3 /\
  randint_spec (Z.of_nat (length two_transitions)) (batch_size empty3) [1; 0] /\
  exists m' b m'',
    nd_inserts two_transitions empty3 = (Ok tt, m') /\
    nd_sample [1; 0] m' = (Ok b, m'') /\
    batch_states b !! 0%nat = Some (Some (obs 2)) /\
    batch_next_states b !! 0%nat = Some (Some (obs 3)) /\
    batch_states b !! 1%nat = Some (Some (obs 1)) /\
    batch_next_states b !! 1%nat = Some (Some (obs 2)).
Proof.
  assert (Hne : two_transitions <> []) by discriminate.
  assert (Hcap : Z.of_nat (length two_transitions) <= max_size empty3)
    by (vm_compute; discriminate).
  assert (Hbs : 1 <= batch_size empty3) by (vm_compute; discriminate).
  assert (Hspec : randint_spec (Z.of_nat (length two_transitions)) (batch_size empty3) [1; 0])
    by (split; [vm_compute; reflexivity | repeat constructor; lia]).
  destruct (X6_round_trip_before_wrap nd_astype_float16 nd_zeros empty3 two_transitions
              [1; 0] empty3_fresh Hne Hcap Hbs Hspec)
    as (m' & b & m'' & Hins & Hs & Hrows).
  assert (Em : m' = half_full) by (rewrite Hins; reflexivity).
  destruct (Hrows 0%nat 1%nat (mkTransition (obs 2) 1 1%float (obs 3) false)
              ltac:(rewrite Em; vm_compute; reflexivity) eq_refl)
    as (Ha1 & _ & _ & _ & Ha2).
  destruct (Hrows 1%nat 0%nat (mkTransition (obs 1) 0 1%float (obs 2) false)
              ltac:(rewrite Em; vm_compute; reflexivity) eq_refl)
    as (Hb1 & _ & _ & _ & Hb2).
  split; [exact empty3_fresh |]. split; [exact Hne |]. split; [exact Hcap |].
  split; [exact Hbs |].
  split; [exact Hspec |].
  exists m', b, m''. split; [exact Hins |]. split; [exact Hs |].
  split; [rewrite Ha1; vm_compute; reflexivity |].
  split; [rewrite Ha2; vm_compute; reflexivity |].
  split; [rewrite Hb1 | rewrite Hb2]; vm_compute; reflexivity.
Defined.

Lemma X7_add_experience_needs_capacity_witness :
  nd_reachable no_capacity /\ max_size no_capacity = 0 /\
  nd_add_experience (obs 1) 0 1%float (obs 2) false no_capacity
  = (Raise ZeroDivisionError, no_capacity).
Proof.
  assert (H0 : max_size no_capacity = 0) by (vm_compute; reflexivity).
  split; [exact no_capacity_reachable |]. split; [exact H0 |].
  exact (proj1 (proj2 (X7_add_experience_needs_capacity nd_astype_float16 nd_zeros nd_stack
                         nd_concatenate nd_normalize_image nd_sub_scalar no_capacity
                         (obs 1) 0 1%float (obs 2) false no_capacity_reachable)) H0).
Defined.

Lemma X8_window_slides_witness :
  nd_reachable seq_empty3 /\ 1 <= state_buffer_maxlen seq_empty3 /\
  cls seq_empty3 = CSeqReplay /\
  state_buffer seq_empty3 = [obs 0; obs 0] /\
  nd_params_preprocess_state (obs 7) true seq_empty3
  = (Ok (array [obs 0; obs 7]), set_state_buffer [obs 0; obs 7] seq_empty3).
Proof.
  assert (H1 : 1 <= state_buffer_maxlen seq_empty3) by (vm_compute; discriminate).
  assert (H2 : cls seq_empty3 = CSeqReplay) by (vm_compute; reflexivity).
  destruct (X8_window_slides nd_astype_float16 nd_zeros nd_stack nd_concatenate
              nd_normalize_image nd_sub_scalar seq_empty3 (obs 7) seq_empty3_reachable)
    as (_ & Hslide).
  split; [exact seq_empty3_reachable |]. split; [exact H1 |]. split; [exact H2 |].
  split; [vm_compute; reflexivity |].
  rewrite (proj1 (Hslide H1) H2). vm_compute. reflexivity.
Defined.

Lemma X9_window_memories_store_the_window_witness :
  nd_reachable concat_empty3 /\ 0 < max_size concat_empty3 /\
  np_isnan 1%float = false /\ cls concat_empty3 = CConcatReplay /\
  nd_concatenate (state_buffer concat_empty3) = Ok (array [scalar 0; scalar 0]) /\
  exists m',
    nd_update (obs 1) 0 1%float (obs 2) false concat_empty3 = (Ok tt, m') /\
    slot (states m') (head m') = Some (array [scalar 0; scalar 0]) /\
    latest_next_state m' = Some (array [scalar 0; scalar 0]).
Proof.
  assert (H0 : 0 < max_size concat_empty3) by (vm_compute; reflexivity).
  assert (H1 : np_isnan 1%float = false) by (vm_compute; reflexivity).
  assert (H2 : cls concat_empty3 = CConcatReplay) by (vm_compute; reflexivity).
  assert (H3 : nd_concatenate (state_buffer concat_empty3)
               = Ok (array [scalar 0; scalar 0])) by (vm_compute; reflexivity).
  destruct (X9_window_memories_store_the_window nd_astype_float16 nd_zeros nd_stack
              nd_concatenate nd_normalize_image nd_sub_scalar concat_empty3
              (obs 1) 0 1%float (obs 2) false (array [scalar 0; scalar 0])
              concat_empty3_reachable H0 (or_intror H1) (or_intror (conj H2 H3)))
    as (m' & Hu & Hst & Hlat & _).
  split; [exact concat_empty3_reachable |]. split; [exact H0 |]. split; [exact H1 |].
  split; [exact H2 |]. split; [exact H3 |].
  exists m'. split; [exact Hu |].
  split; [rewrite Hst | rewrite Hlat]; vm_compute; reflexivity.
Defined.

Lemma X10_wrapped_head_row_witness :
  fresh nd_zeros empty3 /\ 0 < max_size empty3 /\
  max_size empty3 < Z.of_nat (length four_transitions) /\
  Z.of_nat (length four_transitions) mod max_size empty3 <> 0 /\
  1 <= batch_size empty3 /\
  randint_spec (max_size empty3) (batch_size empty3) [0; 2] /\
  exists m' b m'',
    nd_inserts four_transitions empty3 = (Ok tt, m') /\
    nd_sample [0; 2] m' = (Ok b, m'') /\
    head m' = 0 /\ latest_next_state m' = Some (obs 5) /\
    batch_next_states b !! 0%nat = Some (Some (obs 2)).
Proof.
  assert (H0 : 0 < max_size empty3) by (vm_compute; reflexivity).
  assert (H1 : max_size empty3 < Z.of_nat (length four_transitions))
    by (vm_compute; reflexivity).
  assert (H2 : Z.of_nat (length four_transitions) mod max_size empty3 <> 0)
    by (vm_compute; discriminate).
  assert (H3 : 1 <= batch_size empty3) by (vm_compute; discriminate).
  assert (H4 : randint_spec (max_size empty3) (batch_size empty3) [0; 2])
    by (split; [vm_compute; reflexivity | repeat constructor; lia]).
  destruct (X10_wrapped_head_row nd_astype_float16 nd_zeros empty3 four_transitions [0; 2]
              empty3_fresh H0 H1 H2 H3 H4)
    as (m' & b & m'' & Hins & Hs & Hrow).
  assert (Em : m' = wrapped) by (rewrite Hins; reflexivity).
  pose proof (Hrow 0%nat (mkTransition (obs 2) 1 1%float (obs 3) false)
                ltac:(rewrite Em; vm_compute; reflexivity)
                ltac:(vm_compute; reflexivity)) as Hns.
  split; [exact empty3_fresh |]. split; [exact H0 |]. split; [exact H1 |].
  split; [exact H2 |]. split; [exact H3 |]. split; [exact H4 |].
  exists m', b, m''. split; [exact Hins |]. split; [exact Hs |].
  split; [rewrite Em; vm_compute; reflexivity |].
  split; [rewrite Em; vm_compute; reflexivity |].
  rewrite Hns. vm_compute. reflexivity.
Defined.

Lemma X11_cer_last_row_witness :
  nd_reachable cer_wrapped /\ use_cer cer_wrapped = true /\
  1 <= size cer_wrapped /\ 1 <= batch_size cer_wrapped /\
  head cer_wrapped <> size cer_wrapped - 1 /\
  exists b m' idxs,
    nd_sample [1; 1] cer_wrapped = (Ok b, m') /\
    batch_idxs m' = Some idxs /\
    idxs !! 1%nat = Some 0 /\
    batch_states b !! 1%nat = Some (Some (obs 4)) /\
    batch_actions b !! 1%nat = Some (Some 1) /\
    batch_dones b !! 1%nat = Some (Some true) /\
    batch_next_states b !! 1%nat = Some (Some (obs 2)).
Proof.
  assert (H0 : use_cer cer_wrapped = true) by (vm_compute; reflexivity).
  assert (H1 : 1 <= size cer_wrapped) by (vm_compute; discriminate).
  assert (H2 : 1 <= batch_size cer_wrapped) by (vm_compute; discriminate).
  assert (H3 : head cer_wrapped <> size cer_wrapped - 1) by (vm_compute; discriminate).
  destruct (X11_cer_last_row nd_astype_float16 nd_zeros nd_stack nd_concatenate
              nd_normalize_image nd_sub_scalar cer_wrapped [1; 1]
              cer_wrapped_reachable H0 H1 H2)
    as (b & m' & idxs & Hs & Hidxs & _ & Hj & Hst & Hac & _ & Hdo & _ & _ & _ & _ & _ & Hns).
  specialize (Hns H3).
  split; [exact cer_wrapped_reachable |]. split; [exact H0 |]. split; [exact H1 |].
  split; [exact H2 |]. split; [exact H3 |].
  exists b, m', idxs. split; [exact Hs |]. split; [exact Hidxs |].
  vm_compute in Hj, Hst, Hac, Hdo, Hns. vm_compute.
  split; [exact Hj |]. split; [exact Hst |]. split; [exact Hac |].
  split; [exact Hdo | exact Hns].
Defined.
